(** * aiida-pseudo: pseudo potential families

    A shallow embedding of [aiida_pseudo/groups/family/pseudo.py]
    (class [PseudoPotentialFamily]) and the properties of its directory
    parser, its [add_nodes] guard chain and its cached [get_pseudo] lookup.

    Python objects are records, the instance attribute [_pseudos] is an
    optional finite map (Python's [None] until the first access), raised
    exceptions are values of [exc], and every method is a computation in a
    state-and-exception monad whose state survives a raise, as attribute
    mutations do in Python.  The storage collaborators that live in
    aiida-core (the [Group] base class and [QueryBuilder]) are the fields of
    an interface record; the constructor of the node class and the table
    of element symbols its setter checks are parameters of the builder.
    Every theorem holds for all of their implementations, and in-memory
    ones are given to run the code. *)

From Stdlib Require Import Ascii.
From stdpp Require Import gmap strings list fin_maps.

Set Default Proof Using "Type".

(** ** Exceptions *)

(** The exception classes the module raises or catches. *)
Inductive exc : Type :=
  | ModificationNotAllowed   (* aiida.common.exceptions *)
  | NotExistent              (* aiida.common.exceptions *)
  | MultipleObjectsError     (* aiida.common.exceptions *)
  | ParsingError             (* aiida.common.exceptions *)
  | TypeError
  | ValueError
  | RuntimeError
  | OtherError (name : string).

#[global] Instance exc_eq_dec : EqDecision exc.
Proof. solve_decision. Defined.

Inductive Res (A : Type) : Type :=
  | Ok (a : A)
  | Raise (e : exc).
Arguments Ok {A} a.
Arguments Raise {A} e.

(** ** The state-and-exception monad *)

Definition M (S A : Type) : Type := S -> Res A * S.

Definition ret {S A} (a : A) : M S A := fun s => (Ok a, s).

Definition bind {S A B} (m : M S A) (f : A -> M S B) : M S B :=
  fun s =>
    match m s with
    | (Ok a, s') => f a s'
    | (Raise e, s') => (Raise e, s')
    end.

Definition raise {S A} (e : exc) : M S A := fun s => (Raise e, s).
Definition gets {S A} (f : S -> A) : M S A := fun s => (Ok (f s), s).
Definition modify {S} (f : S -> S) : M S unit := fun s => (Ok tt, f s).

Declare Scope py_scope.
Delimit Scope py_scope with py.
Notation "x <- c1 ;; c2" := (bind c1 (fun x => c2))
  (at level 100, c1 at next level, right associativity) : py_scope.
Notation "c1 ;; c2" := (bind c1 (fun _ => c2))
  (at level 100, right associativity) : py_scope.
Open Scope py_scope.

(** ** Python classes and nodes *)

(** A class is its name together with the names of its proper ancestors.
    [type(x) is C] is equality of classes, [issubclass] walks the
    ancestors. *)
Record pyclass : Type := PyClass {
  cls_name : string;
  cls_bases : list string
}.

#[global] Instance pyclass_eq_dec : EqDecision pyclass.
Proof. solve_decision. Defined.

Definition issubclass (c d : pyclass) : bool :=
  bool_decide (cls_name d ∈ cls_name c :: cls_bases c).

Definition PseudoPotentialData : pyclass :=
  PyClass "PseudoPotentialData" ["Data"; "Node"].

(** A class derived from [PseudoPotentialData]. *)
Definition UpfData : pyclass :=
  PyClass "UpfData" ["PseudoPotentialData"; "Data"; "Node"].

(** The value of [pseudo.element]: a symbol, or Python's [None]. *)
Abbreviation elem := (option string).

(** A data node: [type(node)], its primary key ([None] until the node is
    stored) and the attributes the family reads. *)
Record node : Type := Node {
  node_type : pyclass;
  node_pk : option Z;
  element : elem;
  filename : string
}.

Definition node_is_stored (n : node) : bool := bool_decide (is_Some (node_pk n)).

#[global] Instance node_eq_dec : EqDecision node.
Proof. solve_decision. Defined.

Definition isinstance (n : node) (c : pyclass) : bool :=
  issubclass (node_type n) c.

(** The attribute [element] with a new value. *)
Definition set_element (n : node) (e : elem) : node :=
  Node (node_type n) (node_pk n) e (filename n).

(** The [nodes] argument of [add_nodes]: a list, a tuple, or one object. *)
Inductive nodes_arg : Type :=
  | ArgList (l : list node)
  | ArgTuple (l : list node)
  | ArgOne (n : node).

(** ** Families *)

(** A concrete family class: its name and the class attribute
    [_pseudo_type]. *)
Record famclass : Type := FamClass {
  fc_name : string;
  _pseudo_type : pyclass
}.

Definition PseudoPotentialFamily : famclass :=
  FamClass "PseudoPotentialFamily" PseudoPotentialData.

(** A family instance.  [_pseudos] is the instance cache; [None] is the
    class-level default [_pseudos = None]. *)
Record family : Type := Family {
  fam_class : famclass;
  label : string;
  description : option string;
  pk : option Z;
  is_stored : bool;
  _pseudos : option (gmap elem node)
}.

Definition with_pseudos (f : family) (m : gmap elem node) : family :=
  Family (fam_class f) (label f) (description f) (pk f) (is_stored f) (Some m).

(** The instance without its cache: what identifies the family. *)
Definition forget_cache (f : family) : family :=
  Family (fam_class f) (label f) (description f) (pk f) (is_stored f) None.

(** ** The collaborators from aiida-core *)

(** What was asked of the storage backend, in order. *)
Inductive event : Type :=
  | EvObjectsGet (label : string)
  | EvGroupStore
  | EvNodeStore (n : node)
  | EvGroupNodes
  | EvGroupAddNodes (ns : list node)
  | EvQuery (group_pk : option Z) (ty : pyclass) (e : elem).

#[global] Instance event_eq_dec : EqDecision event.
Proof. solve_decision. Defined.

(** The interface of the storage layer over a database state [Db]. *)
Record Backend (Db : Type) : Type := {
  (** [cls.objects.get(label=label)]: the family with that label, if any
      (labels are unique per class in the database). *)
  objects_get : famclass -> string -> Db -> option Z;
  (** [Group.store()] *)
  group_store : family -> Db -> Res family * Db;
  (** [Node.store()] *)
  node_store : node -> Db -> Res node * Db;
  (** [Group.nodes] *)
  group_nodes : family -> Db -> list node;
  (** [Group.add_nodes(nodes)] *)
  group_add_nodes : family -> list node -> Db -> Res unit * Db;
  (** the rows of the two-vertex [QueryBuilder]: nodes of the given class
      with [attributes.element == e] in the group with the given id *)
  query_rows : famclass -> option Z -> pyclass -> elem -> Db -> list node
}.
Arguments objects_get {Db} _ _ _ _.
Arguments group_store {Db} _ _ _.
Arguments node_store {Db} _ _ _.
Arguments group_nodes {Db} _ _ _.
Arguments group_add_nodes {Db} _ _ _ _.
Arguments query_rows {Db} _ _ _ _ _ _.

(** The state a method runs in: the instance, the database and the log of
    backend calls. *)
Record world (Db : Type) : Type := World {
  self : family;
  db : Db;
  trace : list event
}.
Arguments World {Db} _ _ _.
Arguments self {Db} _.
Arguments db {Db} _.
Arguments trace {Db} _.

Section Family.
Context {Db : Type} (B : Backend Db).

Definition log (ev : event) : M (world Db) unit :=
  modify (fun w => World (self w) (db w) (trace w ++ [ev])).

Definition set_self (f : family) : M (world Db) unit :=
  modify (fun w => World f (db w) (trace w)).

(** [{pseudo.element: pseudo for pseudo in nodes}]: later nodes win. *)
Definition index_of_nodes (ns : list node) : gmap elem node :=
  foldl (fun m pseudo => <[element pseudo := pseudo]> m) ∅ ns.

(** The property [pseudos]. *)
Definition pseudos : M (world Db) (gmap elem node) :=
  cache <- gets (fun w => _pseudos (self w));;
  match cache with
  | Some m => ret m
  | None =>
      log EvGroupNodes;;
      ns <- gets (fun w => group_nodes B (self w) (db w));;
      let m := index_of_nodes ns in
      f <- gets self;;
      set_self (with_pseudos f m);;
      ret m
  end.

(** The property [elements]: [list(self.pseudos.keys())].  The keys come
    in the order of the finite map, not in the insertion order of the
    Python dictionary; the module only tests membership in this list. *)
Definition elements : M (world Db) (list elem) :=
  m <- pseudos;;
  ret (map_to_list m).*1.

(** [super().add_nodes(nodes)] *)
Definition super_add_nodes (ns : list node) : M (world Db) unit :=
  log (EvGroupAddNodes ns);;
  fun w =>
    let '(r, d) := group_add_nodes B (self w) ns (db w) in
    (r, World (self w) d (trace w)).

(** The loop of [add_nodes] that fills the staging dictionary. *)
Fixpoint add_nodes_check (ns : list node) (staged : gmap elem node)
    : M (world Db) (gmap elem node) :=
  match ns with
  | [] => ret staged
  | pseudo :: rest =>
      els <- elements;;
      if bool_decide (element pseudo ∈ els) then raise ValueError
      else add_nodes_check rest (<[element pseudo := pseudo]> staged)
  end.

Definition as_list (nodes : nodes_arg) : list node :=
  match nodes with
  | ArgList l | ArgTuple l => l
  | ArgOne n => [n]
  end.

Definition add_nodes (nodes : nodes_arg) : M (world Db) unit :=
  stored <- gets (fun w => is_stored (self w));;
  if negb stored then raise ModificationNotAllowed
  else
    let nodes := as_list nodes in
    ty <- gets (fun w => _pseudo_type (fam_class (self w)));;
    if existsb (fun n => negb (bool_decide (node_type n = ty))) nodes
    then raise TypeError
    else
      staged <- add_nodes_check nodes ∅;;
      m <- pseudos;;
      f <- gets self;;
      (* dict.update: the staged entries overwrite *)
      set_self (with_pseudos f (staged ∪ m));;
      super_add_nodes nodes.

(** [QueryBuilder.one()] *)
Definition one (rows : list node) : Res node :=
  match rows with
  | [] => Raise NotExistent
  | [n] => Ok n
  | _ :: _ :: _ => Raise MultipleObjectsError
  end.

Definition get_pseudo (element : elem) : M (world Db) node :=
  m <- pseudos;;
  match m !! element with
  | Some pseudo => ret pseudo
  | None =>
      (* except KeyError *)
      cls <- gets (fun w => fam_class (self w));;
      id <- gets (fun w => pk (self w));;
      log (EvQuery id (_pseudo_type cls) element);;
      rows <- gets (fun w => query_rows B cls id (_pseudo_type cls) element (db w));;
      match one rows with
      | Raise MultipleObjectsError => raise RuntimeError
      | Raise NotExistent => raise ValueError
      | Raise e => raise e
      | Ok pseudo =>
          (* self.pseudos[element] = pseudo *)
          m' <- pseudos;;
          f <- gets self;;
          set_self (with_pseudos f (<[element := pseudo]> m'));;
          ret pseudo
      end
  end.

(** The index as the [pseudos] property shows it: the cache when it has
    been built, and what a first access would build otherwise. *)
Definition index_view (w : world Db) : gmap elem node :=
  match _pseudos (self w) with
  | Some m => m
  | None => index_of_nodes (group_nodes B (self w) (db w))
  end.

(** The state once the [pseudos] property has been read. *)
Definition warmed (w : world Db) : world Db :=
  match _pseudos (self w) with
  | Some _ => w
  | None =>
      World (with_pseudos (self w) (index_of_nodes (group_nodes B (self w) (db w))))
            (db w) (trace w ++ [EvGroupNodes])
  end.

End Family.

(** ** The regular expression of the filename fallback *)

(** A pattern is a sequence of quantified character classes, some of them
    capturing; this covers [^([A-Za-z]{1,2})\.\w+].  Quantifiers are greedy
    and back off one character at a time, as in Python's [re]. *)
Record re_item : Type := ReItem {
  ri_class : ascii -> bool;
  ri_min : nat;
  ri_max : option nat;     (* [None]: unbounded *)
  ri_capture : bool
}.

Definition in_range (lo hi c : ascii) : bool :=
  (N_of_ascii lo <=? N_of_ascii c)%N && (N_of_ascii c <=? N_of_ascii hi)%N.

(** [[A-Za-z]] *)
Definition is_alpha (c : ascii) : bool :=
  in_range "A" "Z" c || in_range "a" "z" c.

(** A filename is a Python [str]; it is modelled by the string of its code
    points, one [ascii] per character (not by its UTF-8 bytes), which covers
    the names whose code points are below 256. *)

(** The code point [n] as a character. *)
Definition chr (n : N) : ascii := ascii_of_N n.

(** The word characters above ASCII among the code points below 256: the
    letters (the ordinal indicators, the micro sign, and the accented
    letters without the multiplication and division signs) and the
    characters that are digits or numeric (superscript digits and vulgar
    fractions). *)
Definition is_word_latin1 (c : ascii) : bool :=
  bool_decide (c = chr 170) || bool_decide (c = chr 181)
  || bool_decide (c = chr 186)
  || in_range (chr 192) (chr 214) c || in_range (chr 216) (chr 246) c
  || in_range (chr 248) (chr 255) c
  || in_range (chr 178) (chr 179) c || bool_decide (c = chr 185)
  || in_range (chr 188) (chr 190) c.

(** [\w] of a [str] pattern: the Unicode alphanumeric characters and the
    underscore. *)
Definition is_word (c : ascii) : bool :=
  is_alpha c || in_range "0" "9" c || bool_decide (c = "_"%char)
  || is_word_latin1 c.

Definition is_dot (c : ascii) : bool := bool_decide (c = "."%char).

Definition may_take (hi : option nat) : bool :=
  match hi with Some 0 => false | _ => true end.

(** The ways a quantified class can consume a prefix of [s], longest
    first: pairs of the consumed text and the remainder. *)
Fixpoint splits (p : ascii -> bool) (lo : nat) (hi : option nat) (s : string)
    : list (string * string) :=
  let here := match lo with 0 => [(EmptyString, s)] | S _ => [] end in
  match s with
  | String c s' =>
      if p c && may_take hi
      then map (fun tr => (String c tr.1, tr.2))
               (splits p (pred lo) (pred <$> hi) s') ++ here
      else here
  | EmptyString => here
  end.

Fixpoint first_some {A R} (f : A -> option R) (l : list A) : option R :=
  match l with
  | [] => None
  | a :: l' => match f a with Some r => Some r | None => first_some f l' end
  end.

(** Match the items at the start of [s]; the result is the list of the
    captured groups. *)
Fixpoint match_items (items : list re_item) (s : string) : option (list string) :=
  match items with
  | [] => Some []
  | it :: rest =>
      first_some
        (fun tr =>
           match match_items rest tr.2 with
           | Some groups => Some (if ri_capture it then tr.1 :: groups else groups)
           | None => None
           end)
        (splits (ri_class it) (ri_min it) (ri_max it) s)
  end.

(** [r'^([A-Za-z]{1,2})\.\w+'] *)
Definition element_pattern : list re_item :=
  [ ReItem is_alpha 1 (Some 2) true;
    ReItem is_dot 1 (Some 1) false;
    ReItem is_word 1 None false ].

(** [re.search] for a pattern anchored with [^]: a match can only start at
    the first character.  The result is [match.group(1)]. *)
Definition re_search_group1 (items : list re_item) (s : string) : option string :=
  match match_items items s with
  | Some (g :: _) => Some g
  | _ => None
  end.

(** The filename rule in the words of the specification: the name starts
    with one or two alphabetic characters [sym], followed by a dot,
    followed by an extension (at least one word character). *)
Definition starts_with_symbol (name sym : string) : Prop :=
  (String.length sym = 1 \/ String.length sym = 2) /\
  Forall (fun c => is_alpha c = true) (String.list_ascii_of_string sym) /\
  exists c tail, is_word c = true /\
    name = (sym +:+ "." +:+ String c tail)%string.

(** ** The family builder *)

(** A directory entry as the loop sees it: a regular file with its
    content ([os.path.isfile] holds and [open] reads it), or anything else
    (a sub-directory, a socket, a dangling link). *)
Inductive dirent : Type :=
  | EntFile (content : string)
  | EntDir
  | EntOther.

(** The file system: [fs dirpath] is [None] when [os.path.isdir(dirpath)]
    is false, and otherwise the entries of [os.listdir(dirpath)] in listing
    order, each with what [os.path.join(dirpath, filename)] names. *)
Abbreviation filesystem := (string -> option (list (string * dirent))).

Section Builder.
(** [cls._pseudo_type(handle, filename=filename)]: the constructor of the
    node class, given the content and the name of the file. *)
Variable construct : pyclass -> string -> string -> Res node.

(** The table of element symbols the setter of [element] checks its value
    against; the table is not part of this module. *)
Variable valid_element : string -> bool.

(** [pseudo.element = value]: the setter of the node class validates the
    symbol and raises [ValueError] for one that is not in the table. *)
Definition assign_element (pseudo : node) (value : string) : Res node :=
  if valid_element value then Ok (set_element pseudo (Some value))
  else Raise ValueError.

(** The body of the [for] loop: the node to append, or the exception. *)
Definition parse_entry (cls : famclass) (entry : string * dirent) : Res node :=
  let '(filename, target) := entry in
  match target with
  | EntFile content =>
      match construct (_pseudo_type cls) content filename with
      | Raise ParsingError => Raise ParsingError
      | Raise e => Raise e
      | Ok pseudo =>
          match element pseudo with
          | None =>
              match re_search_group1 element_pattern filename with
              | None => Raise ParsingError
              | Some group1 => assign_element pseudo group1
              end
          | Some _ => Ok pseudo
          end
      end
  | _ => Raise ValueError
  end.

Fixpoint parse_loop (cls : famclass) (entries : list (string * dirent))
    (pseudos : list node) : Res (list node) :=
  match entries with
  | [] => Ok pseudos
  | entry :: rest =>
      match parse_entry cls entry with
      | Ok pseudo => parse_loop cls rest (pseudos ++ [pseudo])
      | Raise e => Raise e
      end
  end.

(** The checks after the loop. *)
Definition validate_pseudos (pseudos : list node) : Res (list node) :=
  if bool_decide (pseudos = []) then Raise ValueError
  else
    let elements : gset elem := list_to_set (element <$> pseudos) in
    if bool_decide (length pseudos ≠ size elements) then Raise ValueError
    else Ok pseudos.

Definition parse_pseudos_from_directory (cls : famclass)
    (fs : filesystem) (dirpath : string) : Res (list node) :=
  match fs dirpath with
  | Some entries =>
      match parse_loop cls entries [] with
      | Ok pseudos => validate_pseudos pseudos
      | Raise e => Raise e
      end
  | None => Raise ValueError
  end.

End Builder.

(** Some element appears more than once across the records: two different
    positions hold records with the same element. *)
Definition element_repeated (pseudos : list node) : Prop :=
  exists i j p q,
    i <> j /\ pseudos !! i = Some p /\ pseudos !! j = Some q /\
    element p = element q.

(** ** Creating a family from a folder *)

Section Create.
Context {Db : Type} (B : Backend Db).
Variable construct : pyclass -> string -> string -> Res node.
Variable valid_element : string -> bool.

(** [__init__]: the class attribute must name a subclass of
    [PseudoPotentialData]; the new instance is unstored and has no cache. *)
Definition init (cls : famclass) (label : string) (description : option string)
    : Res family :=
  if negb (issubclass (_pseudo_type cls) PseudoPotentialData)
  then Raise RuntimeError
  else Ok (Family cls label description None false None).

(** The state of a class method: the database and the log. *)
Definition log_c (ev : event) : M (Db * list event) unit :=
  modify (fun s => (s.1, s.2 ++ [ev])).

Definition lift_res {S A} (r : Res A) : M S A := fun s => (r, s).

(** [family.store()] *)
Definition store_family (f : family) : M (Db * list event) family :=
  log_c EvGroupStore;;
  fun s => let '(r, d) := group_store B f s.1 in (r, (d, s.2)).

(** [[pseudo.store() for pseudo in pseudos]] *)
Fixpoint store_nodes (ns : list node) : M (Db * list event) (list node) :=
  match ns with
  | [] => ret []
  | n :: rest =>
      log_c (EvNodeStore n);;
      n' <- (fun s => let '(r, d) := node_store B n s.1 in (r, (d, s.2)));;
      rest' <- store_nodes rest;;
      ret (n' :: rest')
  end.

(** Run a method on the instance [f]. *)
Definition call {A} (f : family) (m : M (world Db) A) : M (Db * list event) (A * family) :=
  fun s =>
    match m (World f s.1 s.2) with
    | (Ok a, w) => (Ok (a, self w), (db w, trace w))
    | (Raise e, w) => (Raise e, (db w, trace w))
    end.

(** [description] is typed as a string or [None], which is what
    [type_check(description, str, allow_none=True)] lets through. *)
Definition create_from_folder (cls : famclass) (fs : filesystem)
    (dirpath label : string) (description : option string)
    : M (Db * list event) family :=
  log_c (EvObjectsGet label);;
  found <- gets (fun s => objects_get B cls label s.1);;
  match found with
  | Some _ => raise ValueError
  | None =>
      (* except NotExistent *)
      family <- lift_res (init cls label description);;
      pseudos <- lift_res (parse_pseudos_from_directory construct valid_element cls fs dirpath);;
      family <- store_family family;;
      stored <- store_nodes pseudos;;
      r <- call family (add_nodes B (ArgList stored));;
      ret r.2
  end.

End Create.

(** ** An in-memory backend *)

Record memgroup : Type := MemGroup {
  mg_pk : Z;
  mg_class : string;
  mg_label : string;
  mg_nodes : list node
}.

Record memdb : Type := MemDb {
  md_groups : list memgroup;
  md_next_pk : Z
}.

Definition mem_find (id : option Z) (d : memdb) : option memgroup :=
  match id with
  | Some i => head (filter (fun g => mg_pk g = i) (md_groups d))
  | None => None
  end.

(** The lookup of a label compares the class by its name; families of a
    derived class are not looked at. *)
Definition mem_objects_get (cls : famclass) (lbl : string) (d : memdb) : option Z :=
  mg_pk <$> head (filter (fun g => mg_class g = fc_name cls /\ mg_label g = lbl)
                         (md_groups d)).

Definition mem_group_store (f : family) (d : memdb) : Res family * memdb :=
  if is_stored f then (Ok f, d)
  else
    let i := md_next_pk d in
    (Ok (Family (fam_class f) (label f) (description f) (Some i) true (_pseudos f)),
     MemDb (md_groups d ++ [MemGroup i (fc_name (fam_class f)) (label f) []]) (i + 1)).

Definition mem_node_store (n : node) (d : memdb) : Res node * memdb :=
  if node_is_stored n then (Ok n, d)
  else
    let i := md_next_pk d in
    (Ok (Node (node_type n) (Some i) (element n) (filename n)),
     MemDb (md_groups d) (i + 1)).

Definition mem_group_nodes (f : family) (d : memdb) : list node :=
  match mem_find (pk f) d with
  | Some g => mg_nodes g
  | None => []
  end.

(** Unstored nodes are refused; nodes already in the group are skipped. *)
Definition mem_group_add_nodes (f : family) (ns : list node) (d : memdb)
    : Res unit * memdb :=
  if existsb (fun n => negb (node_is_stored n)) ns then (Raise ValueError, d)
  else
    (Ok tt,
     MemDb
       ((fun g =>
           if bool_decide (Some (mg_pk g) = pk f)
           then MemGroup (mg_pk g) (mg_class g) (mg_label g)
                  (foldl (fun acc n =>
                            if bool_decide (node_pk n ∈ node_pk <$> acc) then acc
                            else acc ++ [n])
                         (mg_nodes g) ns)
           else g) <$> md_groups d)
       (md_next_pk d)).

Definition mem_query_rows (cls : famclass) (id : option Z) (ty : pyclass)
    (e : elem) (d : memdb) : list node :=
  match mem_find id d with
  | Some g => filter (fun n => isinstance n ty = true /\ element n = e) (mg_nodes g)
  | None => []
  end.

Definition mem_backend : Backend memdb := {|
  objects_get := mem_objects_get;
  group_store := mem_group_store;
  node_store := mem_node_store;
  group_nodes := mem_group_nodes;
  group_add_nodes := mem_group_add_nodes;
  query_rows := mem_query_rows
|}.

(** A node constructor for running the builder: the content of a file is
    the element symbol, an empty file leaves the element unset, and the
    content [garbage] does not parse. *)
Definition mem_construct (ty : pyclass) (content fname : string) : Res node :=
  if bool_decide (content = "garbage") then Raise ParsingError
  else Ok (Node ty None (if bool_decide (content = "") then None else Some content) fname).

(** A table of symbols for running the builder: the elements up to
    lawrencium. *)
Definition sample_symbols : list string :=
  ["H"; "He"; "Li"; "Be"; "B"; "C"; "N"; "O"; "F"; "Ne"; "Na"; "Mg"; "Al"; "Si";
   "P"; "S"; "Cl"; "Ar"; "K"; "Ca"; "Sc"; "Ti"; "V"; "Cr"; "Mn"; "Fe"; "Co"; "Ni";
   "Cu"; "Zn"; "Ga"; "Ge"; "As"; "Se"; "Br"; "Kr"; "Rb"; "Sr"; "Y"; "Zr"; "Nb";
   "Mo"; "Tc"; "Ru"; "Rh"; "Pd"; "Ag"; "Cd"; "In"; "Sn"; "Sb"; "Te"; "I"; "Xe";
   "Cs"; "Ba"; "La"; "Ce"; "Pr"; "Nd"; "Pm"; "Sm"; "Eu"; "Gd"; "Tb"; "Dy"; "Ho";
   "Er"; "Tm"; "Yb"; "Lu"; "Hf"; "Ta"; "W"; "Re"; "Os"; "Ir"; "Pt"; "Au"; "Hg";
   "Tl"; "Pb"; "Bi"; "Po"; "At"; "Rn"; "Fr"; "Ra"; "Ac"; "Th"; "Pa"; "U"; "Np";
   "Pu"; "Am"; "Cm"; "Bk"; "Cf"; "Es"; "Fm"; "Md"; "No"; "Lr"].

Definition sample_valid_element (value : string) : bool :=
  bool_decide (value ∈ sample_symbols).

(** ** Sample objects *)

Definition fe1 : node := Node PseudoPotentialData (Some 11%Z) (Some "Fe") "Fe.upf".
Definition fe2 : node := Node PseudoPotentialData (Some 12%Z) (Some "Fe") "Fe2.upf".
Definition ox1 : node := Node PseudoPotentialData (Some 13%Z) (Some "O") "O.upf".
Definition upf_fe : node := Node UpfData (Some 14%Z) (Some "Fe") "Fe.upf".

(** A node that has not been stored. *)
Definition si_unstored : node := Node PseudoPotentialData None (Some "Si") "Si.upf".

(** A stored family whose cache has not been built, and one never stored. *)
Definition lda : family :=
  Family PseudoPotentialFamily "lda" (Some "LDA family") (Some 1%Z) true None.
Definition fresh : family :=
  Family PseudoPotentialFamily "pbe" None None false None.

(** Databases in which the family [lda] is empty, holds [fe1], and holds
    both [fe1] and [fe2]. *)
Definition db_empty : memdb :=
  MemDb [MemGroup 1 "PseudoPotentialFamily" "lda" []] 20.
Definition db_fe : memdb :=
  MemDb [MemGroup 1 "PseudoPotentialFamily" "lda" [fe1]] 20.
Definition db_fe_twice : memdb :=
  MemDb [MemGroup 1 "PseudoPotentialFamily" "lda" [fe1; fe2]] 20.

Definition sample_fs : filesystem :=
  fun dirpath =>
    if bool_decide (dirpath = "/pseudos")
    then Some [("Fe.upf", EntFile "Fe"); ("O.upf", EntFile ""); ("Cu.UPF", EntFile "")]
    else if bool_decide (dirpath = "/duplicates")
    then Some [("Fe.upf", EntFile ""); ("Fe2.upf", EntFile "Fe")]
    else if bool_decide (dirpath = "/unnamed")
    then Some [("O.upf", EntFile ""); ("oxygen.upf", EntFile ""); ("Si.upf", EntFile "")]
    else if bool_decide (dirpath = "/empty")
    then Some []
    else None.

(** ** Reads and writes of the backend *)

(** The backend calls that only read: the lookup of a label, the listing
    of a group's nodes and a query.  The others store or add. *)
Definition is_read (ev : event) : bool :=
  match ev with
  | EvObjectsGet _ | EvGroupNodes | EvQuery _ _ _ => true
  | EvGroupStore | EvNodeStore _ | EvGroupAddNodes _ => false
  end.

(** * Properties *)

(** ** The lazily built index *)

Section FamilyFacts.
Context {Db : Type} (B : Backend Db).
Implicit Types (w : world Db) (n : node) (ns : list node) (m : gmap elem node).

Lemma pseudos_run w : pseudos B w = (Ok (index_view B w), warmed B w).
Proof.
  unfold pseudos, index_view, warmed, bind, gets.
  destruct (_pseudos (self w)); reflexivity.
Qed.

Lemma elements_run w :
  elements B w = (Ok (map_to_list (index_view B w)).*1, warmed B w).
Proof. unfold elements, bind. rewrite pseudos_run. reflexivity. Qed.

Lemma warmed_cache w : _pseudos (self (warmed B w)) = Some (index_view B w).
Proof.
  unfold warmed, index_view.
  destruct (_pseudos (self w)) eqn:E; simpl; [exact E | reflexivity].
Qed.

Lemma index_view_warmed w : index_view B (warmed B w) = index_view B w.
Proof.
  unfold index_view at 1. rewrite warmed_cache. reflexivity.
Qed.

Lemma warmed_idem w : warmed B (warmed B w) = warmed B w.
Proof.
  unfold warmed at 1. rewrite warmed_cache. reflexivity.
Qed.

Lemma db_warmed w : db (warmed B w) = db w.
Proof. unfold warmed. destruct (_pseudos (self w)); reflexivity. Qed.

Lemma forget_cache_warmed w : forget_cache (self (warmed B w)) = forget_cache (self w).
Proof. unfold warmed. destruct (_pseudos (self w)); reflexivity. Qed.

(** Reading the index asks the backend for the group's nodes at most once
    and writes nothing. *)
Lemma trace_warmed w :
  trace (warmed B w) = trace w \/ trace (warmed B w) = trace w ++ [EvGroupNodes].
Proof. unfold warmed. destruct (_pseudos (self w)); simpl; auto. Qed.

(** [x in list(d.keys())] is [x in d]. *)
Lemma key_in_elements m (k : elem) : k ∈ (map_to_list m).*1 <-> is_Some (m !! k).
Proof.
  rewrite list_elem_of_fmap. split.
  - intros [[k' x] [-> Hin]]. apply elem_of_map_to_list in Hin. simpl. eauto.
  - intros [x Hx]. exists (k, x). split; [reflexivity|].
    apply elem_of_map_to_list. exact Hx.
Qed.

(** ** The guards of [add_nodes] *)

Lemma add_nodes_check_present ns (staged : gmap elem node) w :
  Exists (fun x => is_Some (index_view B w !! element x)) ns ->
  add_nodes_check B ns staged w = (Raise ValueError, warmed B w).
Proof.
  revert staged w. induction ns as [|x rest IH]; intros staged w Hex.
  - inversion Hex.
  - simpl. unfold bind at 1. rewrite elements_run.
    case_bool_decide as Hin.
    + reflexivity.
    + rewrite key_in_elements in Hin.
      apply Exists_cons in Hex as [Hx | Hrest]; [contradiction|].
      rewrite IH, ?warmed_idem; [reflexivity|].
      eapply Exists_impl; [exact Hrest|].
      intros y Hy. rewrite index_view_warmed. exact Hy.
Qed.

Lemma add_nodes_check_fresh ns (staged : gmap elem node) w :
  Forall (fun x => index_view B w !! element x = None) ns ->
  add_nodes_check B ns staged w =
    (Ok (foldl (fun m pseudo => <[element pseudo := pseudo]> m) staged ns),
     match ns with [] => w | _ :: _ => warmed B w end).
Proof.
  revert staged w. induction ns as [|x rest IH]; intros staged w Hall.
  - reflexivity.
  - simpl. unfold bind at 1. rewrite elements_run.
    apply Forall_cons in Hall as [Hx Hrest].
    case_bool_decide as Hin.
    + rewrite key_in_elements, Hx in Hin. destruct Hin as [? [=]].
    + rewrite IH.
      * destruct rest; [reflexivity|]. rewrite warmed_idem. reflexivity.
      * eapply Forall_impl; [exact Hrest|].
        intros y Hy. rewrite index_view_warmed. exact Hy.
Qed.

Lemma add_nodes_unstored_run nodes w :
  is_stored (self w) = false ->
  add_nodes B nodes w = (Raise ModificationNotAllowed, w).
Proof. intros H. unfold add_nodes, bind, gets. rewrite H. reflexivity. Qed.

Lemma wrong_type_exists ns (ty : pyclass) :
  existsb (fun n => negb (bool_decide (node_type n = ty))) ns = true <->
  Exists (fun n => node_type n <> ty) ns.
Proof.
  rewrite existsb_exists, Exists_exists. split.
  - intros [x [Hin Hx]]. exists x. split; [apply list_elem_of_In; exact Hin|].
    apply negb_true_iff, bool_decide_eq_false in Hx. exact Hx.
  - intros [x [Hin Hx]]. exists x. split; [apply list_elem_of_In; exact Hin|].
    apply negb_true_iff, bool_decide_eq_false. exact Hx.
Qed.

Lemma add_nodes_wrong_type_run nodes w :
  is_stored (self w) = true ->
  Exists (fun n => node_type n <> _pseudo_type (fam_class (self w))) (as_list nodes) ->
  add_nodes B nodes w = (Raise TypeError, w).
Proof.
  intros Hs Hex. apply wrong_type_exists in Hex.
  unfold add_nodes, bind, gets. rewrite Hs. simpl. rewrite Hex. reflexivity.
Qed.

(** Past the two guards the method is the duplicate check followed by the
    two updates. *)
Lemma add_nodes_typed_run nodes w :
  is_stored (self w) = true ->
  Forall (fun n => node_type n = _pseudo_type (fam_class (self w))) (as_list nodes) ->
  add_nodes B nodes w =
    (staged <- add_nodes_check B (as_list nodes) ∅;;
     m <- pseudos B;;
     f <- gets self;;
     set_self (with_pseudos f (staged ∪ m));;
     super_add_nodes B (as_list nodes)) w.
Proof.
  intros Hs Hall.
  assert (existsb (fun n => negb (bool_decide
            (node_type n = _pseudo_type (fam_class (self w))))) (as_list nodes) = false) as Hno.
  { apply not_true_iff_false. rewrite wrong_type_exists, Exists_exists.
    intros [x [Hin Hx]]. rewrite Forall_forall in Hall. exact (Hx (Hall x Hin)). }
  unfold add_nodes at 1, bind at 1, gets at 1. rewrite Hs. simpl.
  unfold bind at 1, gets at 1. rewrite Hno. reflexivity.
Qed.

Lemma add_nodes_present_run nodes w :
  is_stored (self w) = true ->
  Forall (fun n => node_type n = _pseudo_type (fam_class (self w))) (as_list nodes) ->
  Exists (fun n => is_Some (index_view B w !! element n)) (as_list nodes) ->
  add_nodes B nodes w = (Raise ValueError, warmed B w).
Proof.
  intros Hs Hall Hex. rewrite add_nodes_typed_run by assumption.
  unfold bind at 1. rewrite add_nodes_check_present by assumption. reflexivity.
Qed.

(** When no element of the batch is a key of the index the check passes,
    whether or not two records of the batch share an element: the staged
    entries are merged into the index (for a shared element the later
    record wins) and the whole batch is handed to [Group.add_nodes]. *)
Lemma add_nodes_fresh_run nodes w :
  is_stored (self w) = true ->
  Forall (fun n => node_type n = _pseudo_type (fam_class (self w))) (as_list nodes) ->
  Forall (fun n => index_view B w !! element n = None) (as_list nodes) ->
  add_nodes B nodes w =
    let merged := index_of_nodes (as_list nodes) ∪ index_view B w in
    let f := with_pseudos (self (warmed B w)) merged in
    let tr := trace (warmed B w) ++ [EvGroupAddNodes (as_list nodes)] in
    let '(r, d) := group_add_nodes B f (as_list nodes) (db w) in
    (r, World f d tr).
Proof.
  intros Hs Hty Hfresh. rewrite add_nodes_typed_run by assumption.
  unfold bind at 1. rewrite add_nodes_check_fresh by assumption.
  unfold bind at 1. rewrite pseudos_run.
  assert (index_view B (match as_list nodes with [] => w | _ :: _ => warmed B w end)
            = index_view B w) as ->
    by (destruct (as_list nodes); [reflexivity | apply index_view_warmed]).
  assert (warmed B (match as_list nodes with [] => w | _ :: _ => warmed B w end)
            = warmed B w) as ->
    by (destruct (as_list nodes); [reflexivity | apply warmed_idem]).
  unfold bind, gets, set_self, modify, super_add_nodes, log. simpl.
  rewrite db_warmed. reflexivity.
Qed.

End FamilyFacts.

Section AddNodes.
Context {Db : Type} (B : Backend Db).
Implicit Types (w : world Db) (n : node) (nodes : nodes_arg).

(** C1 (amended): on a stored family, for every batch whose records are all
    of exactly the accepted type, if the element of some record of the batch
    is already a key of the element index, [add_nodes] fails with
    [ValueError] before anything of the batch is committed: the database is
    the one before the call, the index shows the same mapping, the instance
    is otherwise the same, and the only backend call that can have happened
    is the read that builds the index. *)
Theorem add_nodes_rejects_present_element nodes w :
  is_stored (self w) = true ->
  Forall (fun n => node_type n = _pseudo_type (fam_class (self w))) (as_list nodes) ->
  Exists (fun n => is_Some (index_view B w !! element n)) (as_list nodes) ->
  exists w',
    add_nodes B nodes w = (Raise ValueError, w') /\
    db w' = db w /\
    index_view B w' = index_view B w /\
    forget_cache (self w') = forget_cache (self w) /\
    (trace w' = trace w \/ trace w' = trace w ++ [EvGroupNodes]).
Proof.
  intros Hs Hty Hex. exists (warmed B w).
  split; [apply add_nodes_present_run; assumption|].
  split; [apply db_warmed|].
  split; [apply index_view_warmed|].
  split; [apply forget_cache_warmed | apply trace_warmed].
Qed.

(** C2 (amended): on a stored family, adding a single record of exactly the
    accepted type whose element is already a key of the element index fails
    with [ValueError] and leaves the family unchanged: same database, same
    index, same instance apart from the cache having been built; when the
    cache had been built before the call, the whole state is unchanged. *)
Theorem add_nodes_existing_element_unchanged nodes n w :
  as_list nodes = [n] ->
  is_stored (self w) = true ->
  node_type n = _pseudo_type (fam_class (self w)) ->
  is_Some (index_view B w !! element n) ->
  exists w',
    add_nodes B nodes w = (Raise ValueError, w') /\
    db w' = db w /\
    index_view B w' = index_view B w /\
    forget_cache (self w') = forget_cache (self w) /\
    (trace w' = trace w \/ trace w' = trace w ++ [EvGroupNodes]) /\
    (is_Some (_pseudos (self w)) -> w' = w).
Proof.
  intros Hone Hs Hty Hin. exists (warmed B w).
  split.
  { apply add_nodes_present_run; rewrite ?Hone; auto using Forall_nil, Exists_cons_hd. }
  split; [apply db_warmed|].
  split; [apply index_view_warmed|].
  split; [apply forget_cache_warmed|].
  split; [apply trace_warmed|].
  intros [m Hm]. unfold warmed. rewrite Hm. reflexivity.
Qed.

(** C5: on a stored family, [add_nodes] fails with [TypeError] as soon as
    one record's type is not exactly the accepted type, whatever its
    ancestors are; nothing is read or written. *)
Theorem add_nodes_exact_type_only nodes n w :
  is_stored (self w) = true ->
  n ∈ as_list nodes ->
  node_type n <> _pseudo_type (fam_class (self w)) ->
  add_nodes B nodes w = (Raise TypeError, w).
Proof.
  intros Hs Hin Hty. unfold add_nodes, bind, gets. rewrite Hs. simpl.
  replace (existsb _ (as_list nodes)) with true; [reflexivity|].
  symmetry. apply existsb_exists. exists n.
  split; [apply list_elem_of_In; exact Hin|].
  apply negb_true_iff, bool_decide_eq_false. exact Hty.
Qed.

(** C6: on a family that is not stored, every call of [add_nodes] fails
    with [ModificationNotAllowed], whatever is passed. *)
Theorem add_nodes_unstored_not_allowed nodes w :
  is_stored (self w) = false ->
  add_nodes B nodes w = (Raise ModificationNotAllowed, w).
Proof.
  intros Hs. unfold add_nodes, bind, gets.
  (* the first statement of the method *)
  rewrite Hs. simpl. unfold raise. reflexivity.
Qed.

(** C10: the guards are ordered.  An unstored family fails with
    [ModificationNotAllowed] whatever the records are; a stored family given
    a batch with a wrong-typed record and a record whose element is already
    present fails with [TypeError], and the state is untouched: the index
    was not even read, so no duplicate check had run. *)
Theorem add_nodes_guard_order w :
  (is_stored (self w) = false ->
   forall nodes, add_nodes B nodes w = (Raise ModificationNotAllowed, w)) /\
  (is_stored (self w) = true ->
   forall nodes bad dup,
     bad ∈ as_list nodes ->
     node_type bad <> _pseudo_type (fam_class (self w)) ->
     dup ∈ as_list nodes ->
     is_Some (index_view B w !! element dup) ->
     add_nodes B nodes w = (Raise TypeError, w)).
Proof.
  split.
  - intros Hs nodes. apply add_nodes_unstored_run, Hs.
  - intros Hs nodes bad dup Hbad Hty _ _.
    apply add_nodes_wrong_type_run; [exact Hs|].
    apply Exists_exists. eauto.
Qed.

End AddNodes.

(** C1, as stated, fails twice.  A batch of two records of the accepted
    type that share the element Fe, added to a family without Fe, is
    accepted and both records reach the group; and a batch whose record has
    an element already present but the wrong type fails with [TypeError]. *)
Lemma add_nodes_batch_counterexample :
  let cold := World lda db_empty [] in
  let warm := World lda db_fe [] in
  (element fe1 = element fe2 /\
   index_view mem_backend cold !! element fe1 = None /\
   (add_nodes mem_backend (ArgList [fe1; fe2]) cold).1 = Ok tt /\
   db (add_nodes mem_backend (ArgList [fe1; fe2]) cold).2 = db_fe_twice) /\
  (index_view mem_backend warm !! element upf_fe = Some fe1 /\
   add_nodes mem_backend (ArgList [upf_fe]) warm = (Raise TypeError, warm)).
Proof. vm_compute. repeat split; reflexivity. Qed.

Lemma add_nodes_rejects_present_element_witness :
  exists w',
    add_nodes mem_backend (ArgList [ox1; fe2]) (World lda db_fe []) = (Raise ValueError, w') /\
    db w' = db_fe /\
    index_view mem_backend w' = index_view mem_backend (World lda db_fe []) /\
    forget_cache (self w') = forget_cache lda /\
    (trace w' = [] \/ trace w' = [] ++ [EvGroupNodes]).
Proof.
  apply (add_nodes_rejects_present_element mem_backend
           (ArgList [ox1; fe2]) (World lda db_fe [])).
  - reflexivity.
  - repeat constructor.
  - apply Exists_cons_tl, Exists_cons_hd. vm_compute. eauto.
Defined.

(** C2, as stated, fails for a record of another type: the element of
    [upf_fe] is a key of the index, yet the call fails with [TypeError]. *)
Lemma add_nodes_existing_element_counterexample :
  let w := World lda db_fe [] in
  is_stored (self w) = true /\
  index_view mem_backend w !! element upf_fe = Some fe1 /\
  add_nodes mem_backend (ArgOne upf_fe) w = (Raise TypeError, w).
Proof. vm_compute. repeat split; reflexivity. Qed.

Lemma add_nodes_existing_element_unchanged_witness :
  exists w',
    add_nodes mem_backend (ArgOne fe2) (World lda db_fe []) = (Raise ValueError, w') /\
    db w' = db_fe /\
    index_view mem_backend w' = index_view mem_backend (World lda db_fe []) /\
    forget_cache (self w') = forget_cache lda /\
    (trace w' = [] \/ trace w' = [] ++ [EvGroupNodes]) /\
    (is_Some (_pseudos lda) -> w' = World lda db_fe []).
Proof.
  apply (add_nodes_existing_element_unchanged mem_backend
           (ArgOne fe2) fe2 (World lda db_fe [])).
  - reflexivity.
  - reflexivity.
  - reflexivity.
  - vm_compute. eauto.
Defined.

Lemma add_nodes_exact_type_only_witness :
  isinstance upf_fe (_pseudo_type (fam_class lda)) = true /\
  add_nodes mem_backend (ArgOne upf_fe) (World lda db_fe [])
    = (Raise TypeError, World lda db_fe []).
Proof.
  split; [reflexivity|].
  apply (add_nodes_exact_type_only mem_backend (ArgOne upf_fe) upf_fe).
  - reflexivity.
  - simpl. constructor.
  - discriminate.
Defined.

Lemma add_nodes_unstored_not_allowed_witness :
  add_nodes mem_backend (ArgList [fe1; upf_fe]) (World fresh db_empty [])
    = (Raise ModificationNotAllowed, World fresh db_empty []).
Proof.
  apply (add_nodes_unstored_not_allowed mem_backend). reflexivity.
Defined.

Lemma add_nodes_guard_order_witness :
  add_nodes mem_backend (ArgList [upf_fe; fe2]) (World fresh db_fe [])
    = (Raise ModificationNotAllowed, World fresh db_fe []) /\
  add_nodes mem_backend (ArgList [fe2; upf_fe]) (World lda db_fe [])
    = (Raise TypeError, World lda db_fe []).
Proof.
  split.
  - apply (proj1 (add_nodes_guard_order mem_backend (World fresh db_fe []))).
    reflexivity.
  - apply (proj2 (add_nodes_guard_order mem_backend (World lda db_fe []))
             eq_refl (ArgList [fe2; upf_fe]) upf_fe fe2).
    + simpl. repeat constructor.
    + discriminate.
    + simpl. constructor.
    + vm_compute. eauto.
Defined.

(** ** The cached lookup *)

(** A hit returns the cached record and touches nothing, whatever the
    backend is. *)
Lemma get_pseudo_hit_run {Db : Type} (B : Backend Db) (e : elem) (n : node)
    (w : world Db) (m : gmap elem node) :
  _pseudos (self w) = Some m ->
  m !! e = Some n ->
  get_pseudo B e w = (Ok n, w).
Proof.
  intros Hm He. unfold get_pseudo, bind. rewrite pseudos_run.
  unfold index_view, warmed. rewrite Hm, He. reflexivity.
Qed.

Section GetPseudo.
Context {Db : Type} (B : Backend Db).
Implicit Types (w : world Db) (n : node) (e : elem).

(** The rows the query of [get_pseudo] returns in state [w]. *)
Local Abbreviation rows_of e w :=
  (query_rows B (fam_class (self w)) (pk (self w))
     (_pseudo_type (fam_class (self w))) e (db w)).

(** The log after a miss: the index was read, then the query was run. *)
Local Abbreviation asked e w :=
  (trace (warmed B w) ++
     [EvQuery (pk (self w)) (_pseudo_type (fam_class (self w))) e]).

(** A miss runs the query once and dispatches on the number of rows. *)
Lemma get_pseudo_miss_run e w :
  index_view B w !! e = None ->
  get_pseudo B e w =
    match rows_of e w with
    | [] => (Raise ValueError, World (self (warmed B w)) (db w) (asked e w))
    | [n] =>
        (Ok n,
         World (with_pseudos (self (warmed B w)) (<[e := n]> (index_view B w)))
               (db w) (asked e w))
    | _ :: _ :: _ =>
        (Raise RuntimeError, World (self (warmed B w)) (db w) (asked e w))
    end.
Proof.
  intros He. unfold get_pseudo, bind at 1. rewrite pseudos_run, He.
  unfold bind, gets, log, modify, set_self, ret, raise.
  unfold index_view, warmed in *.
  destruct (_pseudos (self w)) as [m|] eqn:Hm; simpl.
  - destruct (rows_of e w) as [|n [|n' more]]; simpl; try reflexivity.
    rewrite pseudos_run. unfold index_view, warmed. simpl. rewrite Hm. reflexivity.
  - destruct (query_rows _ _ _ _ _ _) as [|n [|n' more]]; reflexivity.
Qed.

(** C3: when the element is not a key of the index, [get_pseudo] runs one
    query scoped to this family and that element; no row gives
    [ValueError], exactly one row is cached in the index and returned, and
    more than one row gives [RuntimeError], which is not [ValueError]. *)
Theorem get_pseudo_miss e w :
  index_view B w !! e = None ->
  (rows_of e w = [] ->
   exists w', get_pseudo B e w = (Raise ValueError, w') /\ trace w' = asked e w) /\
  (forall n, rows_of e w = [n] ->
   exists w',
     get_pseudo B e w = (Ok n, w') /\ trace w' = asked e w /\
     _pseudos (self w') = Some (<[e := n]> (index_view B w)) /\
     index_view B w' !! e = Some n) /\
  (forall n1 n2 more, rows_of e w = n1 :: n2 :: more ->
   exists w', get_pseudo B e w = (Raise RuntimeError, w') /\ trace w' = asked e w) /\
  RuntimeError <> ValueError.
Proof.
  intros He. rewrite (get_pseudo_miss_run e w He).
  split; [|split; [|split]].
  - intros ->. eexists. split; reflexivity.
  - intros n ->. eexists. split; [reflexivity|].
    split; [reflexivity|]. split; [reflexivity|].
    unfold index_view at 1. simpl. apply lookup_insert_eq.
  - intros n1 n2 more ->. eexists. split; reflexivity.
  - discriminate.
Qed.

(** C4: once a call of [get_pseudo] has succeeded through the query, a
    second call for the same element on the same instance returns the same
    record and leaves the state, log included, as it was: the query layer is
    not invoked.  The same holds over any backend and any database. *)
Theorem get_pseudo_cached e n w w1 :
  index_view B w !! e = None ->
  get_pseudo B e w = (Ok n, w1) ->
  get_pseudo B e w1 = (Ok n, w1) /\
  forall (B' : Backend Db) (d' : Db),
    get_pseudo B' e (World (self w1) d' (trace w1))
      = (Ok n, World (self w1) d' (trace w1)).
Proof.
  intros He Hfirst. rewrite (get_pseudo_miss_run e w He) in Hfirst.
  destruct (rows_of e w) as [|n0 [|n' more]]; try discriminate.
  injection Hfirst as -> <-.
  split; [|intros B' d'];
    (eapply get_pseudo_hit_run; [reflexivity | apply lookup_insert_eq]).
Qed.

End GetPseudo.

Lemma get_pseudo_miss_witness :
  let w := World (with_pseudos lda ∅) db_fe [] in
  let q := [EvQuery (Some 1%Z) PseudoPotentialData (Some "Fe")] in
  (exists w', get_pseudo mem_backend (Some "O") w = (Raise ValueError, w')) /\
  (exists w', get_pseudo mem_backend (Some "Fe") w = (Ok fe1, w') /\ trace w' = q /\
              index_view mem_backend w' !! Some "Fe" = Some fe1) /\
  (exists w', get_pseudo mem_backend (Some "Fe") (World (with_pseudos lda ∅) db_fe_twice [])
                = (Raise RuntimeError, w') /\ trace w' = q).
Proof.
  split; [|split].
  - destruct (get_pseudo_miss mem_backend (Some "O")
                (World (with_pseudos lda ∅) db_fe [])) as [H _].
    + vm_compute. reflexivity.
    + destruct H as [w' [H _]]; [vm_compute; reflexivity|].
      exists w'. exact H.
  - destruct (get_pseudo_miss mem_backend (Some "Fe")
                (World (with_pseudos lda ∅) db_fe [])) as [_ [H _]].
    + vm_compute. reflexivity.
    + destruct (H fe1) as [w' [H1 [Ht [_ Hi]]]]; [vm_compute; reflexivity|].
      exists w'. split; [exact H1|]. split; [exact Ht | exact Hi].
  - destruct (get_pseudo_miss mem_backend (Some "Fe")
                (World (with_pseudos lda ∅) db_fe_twice [])) as [_ [_ [H _]]].
    + vm_compute. reflexivity.
    + destruct (H fe1 fe2 []) as [w' [H1 Ht]]; [vm_compute; reflexivity|].
      exists w'. split; [exact H1 | exact Ht].
Defined.

Lemma get_pseudo_cached_witness :
  let w := World (with_pseudos lda ∅) db_fe [] in
  let w1 := (get_pseudo mem_backend (Some "Fe") w).2 in
  trace w1 = [EvQuery (Some 1%Z) PseudoPotentialData (Some "Fe")] /\
  get_pseudo mem_backend (Some "Fe") w1 = (Ok fe1, w1).
Proof.
  split; [vm_compute; reflexivity|].
  apply (get_pseudo_cached mem_backend (Some "Fe") fe1
           (World (with_pseudos lda ∅) db_fe [])).
  - vm_compute. reflexivity.
  - vm_compute. reflexivity.
Defined.

(** ** The filename pattern *)

Lemma first_some_const {A R} (r : R) (l : list A) :
  first_some (fun _ => Some r) l = match l with [] => None | _ :: _ => Some r end.
Proof. destruct l; reflexivity. Qed.

(** With no lower bound left, the empty prefix is always a way to go on. *)
Lemma splits_zero_nonempty p hi s : splits p 0 hi s <> [].
Proof.
  destruct s as [|c s']; simpl; [discriminate|].
  destruct (p c && may_take hi); [|discriminate].
  intros H. apply app_eq_nil in H as [_ H]. discriminate.
Qed.

Section PatternSteps.
Variables (p : ascii -> bool) (rest : list re_item).

(** [\w+] at the end of a pattern: one character of the class is enough. *)
Lemma match_plus_last s :
  match_items [ReItem p 1 None false] s =
    match s with
    | String c _ => if p c then Some [] else None
    | EmptyString => None
    end.
Proof.
  destruct s as [|c s']; [reflexivity|].
  cbn [match_items ri_class ri_min ri_max ri_capture].
  rewrite first_some_const. cbn [splits may_take pred fmap option_fmap option_map].
  rewrite andb_true_r. destruct (p c); [|reflexivity].
  rewrite app_nil_r.
  destruct (splits p 0 None s') eqn:E; [|reflexivity].
  exfalso. exact (splits_zero_nonempty _ _ _ E).
Qed.

(** A class taken exactly once. *)
Lemma match_once s :
  match_items (ReItem p 1 (Some 1) false :: rest) s =
    match s with
    | String c r => if p c then match_items rest r else None
    | EmptyString => None
    end.
Proof.
  destruct s as [|c r]; [reflexivity|].
  cbn [match_items ri_class ri_min ri_max ri_capture splits may_take pred
       fmap option_fmap option_map].
  rewrite andb_true_r. destruct (p c); [|reflexivity].
  destruct r as [|c' r']; cbn; rewrite ?andb_false_r; cbn;
    destruct (match_items rest _); reflexivity.
Qed.

(** A capturing class taken once or twice: two characters are tried
    first. *)
Lemma match_once_or_twice s :
  match_items (ReItem p 1 (Some 2) true :: rest) s =
    match s with
    | String c1 r1 =>
        if p c1 then
          match
            match r1 with
            | String c2 r2 =>
                if p c2
                then cons (String c1 (String c2 EmptyString)) <$> match_items rest r2
                else None
            | EmptyString => None
            end
          with
          | Some groups => Some groups
          | None => cons (String c1 EmptyString) <$> match_items rest r1
          end
        else None
    | EmptyString => None
    end.
Proof.
  destruct s as [|c1 r1]; [reflexivity|].
  cbn [match_items ri_class ri_min ri_max ri_capture splits may_take pred
       fmap option_fmap option_map].
  rewrite andb_true_r. destruct (p c1); [|reflexivity].
  destruct r1 as [|c2 r2]; cbn.
  - destruct (match_items rest _); reflexivity.
  - destruct (p c2); cbn.
    + destruct r2 as [|c3 r3]; cbn; rewrite ?andb_false_r; cbn;
        destruct (match_items rest _); try reflexivity;
        destruct (match_items rest _); reflexivity.
    + destruct (match_items rest _); reflexivity.
Qed.

End PatternSteps.

(** The word characters at the borders of the classes: the underscore and
    an accented letter are word characters, the hyphen, the dot and the
    multiplication sign are not. *)
Example is_word_borders :
  is_word "_" = true /\ is_word (chr 233) = true /\ is_word "9" = true /\
  is_word "-" = false /\ is_word "." = false /\ is_word (chr 215) = false /\
  is_word (chr 247) = false /\ is_word (chr 160) = false.
Proof. repeat split; reflexivity. Qed.

Lemma is_dot_true c : is_dot c = true <-> c = "."%char.
Proof. unfold is_dot. apply bool_decide_eq_true. Qed.

(** The pattern finds the symbol the specification's rule describes. *)
Lemma element_pattern_sound name sym :
  starts_with_symbol name sym ->
  re_search_group1 element_pattern name = Some sym.
Proof.
  intros (Hlen & Halpha & c & tail & Hw & ->).
  unfold re_search_group1, element_pattern.
  destruct sym as [|a [|b [|x sym']]]; simpl in Hlen;
    try (destruct Hlen; discriminate); cbv [String.append].
  - apply Forall_cons in Halpha as [Ha _]. cbv beta in Ha.
    rewrite match_once_or_twice, Ha.
    change (is_alpha ".") with false. cbv iota.
    rewrite match_once. change (is_dot ".") with true. cbv iota.
    rewrite match_plus_last, Hw. reflexivity.
  - apply Forall_cons in Halpha as [Ha Hb]. apply Forall_cons in Hb as [Hb _].
    cbv beta in Ha, Hb.
    rewrite match_once_or_twice, Ha, Hb.
    rewrite match_once. change (is_dot ".") with true. cbv iota.
    rewrite match_plus_last, Hw. reflexivity.
Qed.

Ltac pattern_cases :=
  repeat first
    [ rewrite match_once
    | rewrite match_plus_last
    | discriminate
    | match goal with
      | |- context [match ?s with EmptyString => _ | String _ _ => _ end] =>
          is_var s; destruct s
      | |- context [if ?b then _ else _] => destruct b eqn:?
      end
    | progress simpl ].

Lemma element_pattern_complete name sym :
  re_search_group1 element_pattern name = Some sym ->
  starts_with_symbol name sym.
Proof.
  unfold re_search_group1, element_pattern, starts_with_symbol.
  rewrite match_once_or_twice. pattern_cases.
  all: intros [= <-].
  all: repeat match goal with
         | H : is_dot _ = true |- _ => apply is_dot_true in H; subst
         end.
  all: try match goal with
         | H : is_alpha "." = true |- _ => discriminate H
         end.
  all: (split; [simpl; auto|]); (split; [repeat constructor; assumption|]).
  all: eexists _, _; split; [eassumption | reflexivity].
Qed.

Lemma element_pattern_none name :
  (forall sym, ~ starts_with_symbol name sym) ->
  re_search_group1 element_pattern name = None.
Proof.
  intros Hno. destruct (re_search_group1 element_pattern name) as [sym|] eqn:E;
    [|reflexivity].
  exfalso. exact (Hno sym (element_pattern_complete _ _ E)).
Qed.

(** ** The checks after the loop *)

Lemma size_list_to_set_le (l : list elem) :
  size (list_to_set l : gset elem) <= length l.
Proof.
  induction l as [|x l IH].
  - rewrite list_to_set_nil, size_empty. simpl. lia.
  - rewrite list_to_set_cons, size_union_alt, size_singleton. simpl.
    assert (size (list_to_set l ∖ {[x]} : gset elem) <= size (list_to_set l : gset elem)).
    { apply subseteq_size, subseteq_difference_l. reflexivity. }
    lia.
Qed.

(** [len(set(l)) == len(l)] exactly when [l] has no repetition. *)
Lemma size_list_to_set_NoDup (l : list elem) :
  size (list_to_set l : gset elem) = length l <-> NoDup l.
Proof.
  split; [|apply size_list_to_set].
  induction l as [|x l IH]; intros Hsize; [constructor|].
  rewrite list_to_set_cons in Hsize. simpl in Hsize.
  pose proof (size_list_to_set_le l) as Hle.
  destruct (decide (x ∈ l)) as [Hin|Hnin].
  - exfalso.
    assert ({[x]} ∪ list_to_set l = (list_to_set l : gset elem)) as Heq
      by (apply subseteq_union_1_L; set_solver).
    rewrite Heq in Hsize. lia.
  - apply NoDup_cons. split; [exact Hnin|]. apply IH.
    rewrite size_union, size_singleton in Hsize by set_solver. lia.
Qed.

Lemma repeated_not_NoDup {A} `{EqDecision A} (l : list A) :
  ~ NoDup l <-> exists i j x, i <> j /\ l !! i = Some x /\ l !! j = Some x.
Proof.
  split.
  - induction l as [|x l IH]; intros Hnd.
    + destruct Hnd. constructor.
    + destruct (decide (x ∈ l)) as [Hin|Hnin].
      * apply list_elem_of_lookup in Hin as [j Hj].
        exists 0, (S j), x. split; [discriminate|]. split; [reflexivity | exact Hj].
      * destruct IH as (i & j & y & Hij & Hi & Hj).
        { intros Hl. apply Hnd. apply NoDup_cons. split; assumption. }
        exists (S i), (S j), y. split; [congruence|]. split; assumption.
  - intros (i & j & x & Hij & Hi & Hj) Hnd.
    apply Hij. eapply NoDup_alt; eassumption.
Qed.

Lemma element_repeated_not_NoDup (pseudos : list node) :
  element_repeated pseudos <-> ~ NoDup (element <$> pseudos).
Proof.
  rewrite repeated_not_NoDup. unfold element_repeated. split.
  - intros (i & j & p & q & Hij & Hi & Hj & Heq).
    exists i, j, (element p). split; [exact Hij|].
    rewrite !list_lookup_fmap, Hi, Hj. simpl. rewrite Heq. split; reflexivity.
  - intros (i & j & x & Hij & Hi & Hj).
    rewrite list_lookup_fmap in Hi, Hj.
    destruct (pseudos !! i) as [p|] eqn:Ep; [|discriminate].
    destruct (pseudos !! j) as [q|] eqn:Eq; [|discriminate].
    exists i, j, p, q. simpl in *. split; [exact Hij|].
    split; [exact Ep|]. split; [exact Eq|]. congruence.
Qed.

Lemma element_repeated_size (pseudos : list node) :
  element_repeated pseudos <->
  length pseudos <> size (list_to_set (element <$> pseudos) : gset elem).
Proof.
  rewrite element_repeated_not_NoDup, <- size_list_to_set_NoDup, length_fmap.
  split; intros H Heq; apply H; symmetry; exact Heq.
Qed.

Section BuilderFacts.
Variable construct : pyclass -> string -> string -> Res node.
Variable valid_element : string -> bool.

Lemma parse_loop_app cls pre post acc :
  parse_loop construct valid_element cls (pre ++ post) acc =
    match parse_loop construct valid_element cls pre acc with
    | Ok pseudos => parse_loop construct valid_element cls post pseudos
    | Raise e => Raise e
    end.
Proof.
  revert acc. induction pre as [|x pre IH]; intros acc; simpl; [reflexivity|].
  destruct (parse_entry construct valid_element cls x); [apply IH | reflexivity].
Qed.

(** C7: once every entry has been parsed, the produced list is validated:
    an empty list fails with [ValueError]; a list in which some element
    appears more than once fails with [ValueError]; an element is repeated
    exactly when the number of records differs from the number of distinct
    elements, and on a non-empty list that comparison alone decides between
    [ValueError] and returning the records. *)
Theorem parse_post_pass cls (fs : filesystem) dirpath entries pseudos :
  fs dirpath = Some entries ->
  parse_loop construct valid_element cls entries [] = Ok pseudos ->
  let result := parse_pseudos_from_directory construct valid_element cls fs dirpath in
  let distinct : gset elem := list_to_set (element <$> pseudos) in
  (pseudos = [] -> result = Raise ValueError) /\
  (element_repeated pseudos -> result = Raise ValueError) /\
  (element_repeated pseudos <-> length pseudos <> size distinct) /\
  (pseudos <> [] ->
     (length pseudos <> size distinct -> result = Raise ValueError) /\
     (length pseudos = size distinct -> result = Ok pseudos)).
Proof.
  intros Hdir Hloop result distinct. subst result distinct.
  unfold parse_pseudos_from_directory. rewrite Hdir, Hloop.
  unfold validate_pseudos.
  split; [|split; [|split]].
  - intros ->. reflexivity.
  - intros Hrep. apply element_repeated_size in Hrep.
    case_bool_decide; [reflexivity|].
    rewrite bool_decide_eq_true_2 by exact Hrep. reflexivity.
  - apply element_repeated_size.
  - intros Hne. rewrite bool_decide_eq_false_2 by exact Hne. split; intros H.
    + rewrite bool_decide_eq_true_2 by exact H. reflexivity.
    + rewrite bool_decide_eq_false_2 by (intros Hn; exact (Hn H)). reflexivity.
Qed.

(** C8 (amended): when the constructor leaves the element of a file's
    record unset, the element is derived from the filename.  If the name
    starts with one or two alphabetic characters followed by a dot and an
    extension, those leading characters are assigned to the element: when
    they are a symbol of the table the record is appended with them as its
    element and the loop goes on, and when they are not the setter's
    [ValueError] ends the operation.  If the name does not have that shape
    the operation fails with [ParsingError]. *)
Theorem filename_fallback cls (fs : filesystem) dirpath pre name content post acc pseudo :
  fs dirpath = Some (pre ++ (name, EntFile content) :: post) ->
  parse_loop construct valid_element cls pre [] = Ok acc ->
  construct (_pseudo_type cls) content name = Ok pseudo ->
  element pseudo = None ->
  (forall sym, starts_with_symbol name sym -> valid_element sym = true ->
     parse_entry construct valid_element cls (name, EntFile content)
       = Ok (set_element pseudo (Some sym)) /\
     parse_loop construct valid_element cls (pre ++ (name, EntFile content) :: post) []
       = parse_loop construct valid_element cls post
           (acc ++ [set_element pseudo (Some sym)])) /\
  (forall sym, starts_with_symbol name sym -> valid_element sym = false ->
     parse_entry construct valid_element cls (name, EntFile content)
       = Raise ValueError /\
     parse_pseudos_from_directory construct valid_element cls fs dirpath
       = Raise ValueError) /\
  ((forall sym, ~ starts_with_symbol name sym) ->
     parse_entry construct valid_element cls (name, EntFile content)
       = Raise ParsingError /\
     parse_pseudos_from_directory construct valid_element cls fs dirpath
       = Raise ParsingError).
Proof.
  intros Hdir Hpre Hctor Hnone. split; [|split].
  - intros sym Hsym Hvalid.
    assert (parse_entry construct valid_element cls (name, EntFile content)
              = Ok (set_element pseudo (Some sym))) as Hentry.
    { unfold parse_entry. rewrite Hctor, Hnone.
      rewrite (element_pattern_sound _ _ Hsym).
      unfold assign_element. rewrite Hvalid. reflexivity. }
    split; [exact Hentry|].
    rewrite parse_loop_app, Hpre. cbn [parse_loop]. rewrite Hentry. reflexivity.
  - intros sym Hsym Hinvalid.
    assert (parse_entry construct valid_element cls (name, EntFile content)
              = Raise ValueError) as Hentry.
    { unfold parse_entry. rewrite Hctor, Hnone.
      rewrite (element_pattern_sound _ _ Hsym).
      unfold assign_element. rewrite Hinvalid. reflexivity. }
    split; [exact Hentry|].
    unfold parse_pseudos_from_directory. rewrite Hdir.
    rewrite parse_loop_app, Hpre. cbn [parse_loop]. rewrite Hentry. reflexivity.
  - intros Hno.
    assert (parse_entry construct valid_element cls (name, EntFile content)
              = Raise ParsingError) as Hentry.
    { unfold parse_entry. rewrite Hctor, Hnone.
      rewrite (element_pattern_none _ Hno). reflexivity. }
    split; [exact Hentry|].
    unfold parse_pseudos_from_directory. rewrite Hdir.
    rewrite parse_loop_app, Hpre. cbn [parse_loop]. rewrite Hentry. reflexivity.
Qed.

End BuilderFacts.

Lemma parse_post_pass_witness :
  let parse := parse_pseudos_from_directory mem_construct sample_valid_element PseudoPotentialFamily sample_fs in
  parse "/empty" = Raise ValueError /\
  parse "/duplicates" = Raise ValueError /\
  parse "/pseudos" =
    Ok [Node PseudoPotentialData None (Some "Fe") "Fe.upf";
        Node PseudoPotentialData None (Some "O") "O.upf";
        Node PseudoPotentialData None (Some "Cu") "Cu.UPF"].
Proof.
  split; [|split].
  - destruct (parse_post_pass mem_construct sample_valid_element PseudoPotentialFamily sample_fs
                "/empty" [] [] eq_refl eq_refl) as [H _].
    exact (H eq_refl).
  - destruct (parse_post_pass mem_construct sample_valid_element PseudoPotentialFamily sample_fs
                "/duplicates" [("Fe.upf", EntFile ""); ("Fe2.upf", EntFile "Fe")]
                [Node PseudoPotentialData None (Some "Fe") "Fe.upf";
                 Node PseudoPotentialData None (Some "Fe") "Fe2.upf"]
                eq_refl eq_refl) as (_ & _ & _ & H).
    apply H; [discriminate|]. vm_compute. discriminate.
  - destruct (parse_post_pass mem_construct sample_valid_element PseudoPotentialFamily sample_fs
                "/pseudos"
                [("Fe.upf", EntFile "Fe"); ("O.upf", EntFile ""); ("Cu.UPF", EntFile "")]
                [Node PseudoPotentialData None (Some "Fe") "Fe.upf";
                 Node PseudoPotentialData None (Some "O") "O.upf";
                 Node PseudoPotentialData None (Some "Cu") "Cu.UPF"]
                eq_refl eq_refl) as (_ & _ & _ & H).
    apply H; [discriminate|]. vm_compute. reflexivity.
Defined.

Lemma no_symbol_in_oxygen : forall sym, ~ starts_with_symbol "oxygen.upf" sym.
Proof.
  intros sym H. apply element_pattern_sound in H. vm_compute in H. discriminate.
Qed.

Lemma starts_with_symbol_Cu : starts_with_symbol "Cu.UPF" "Cu".
Proof.
  split; [right; reflexivity|]. split; [repeat constructor|].
  exists "U"%char, "PF". split; reflexivity.
Qed.

Lemma starts_with_symbol_ab : starts_with_symbol "ab.upf" "ab".
Proof.
  split; [right; reflexivity|]. split; [repeat constructor|].
  exists "u"%char, "pf". split; reflexivity.
Qed.

(** C8, as stated, fails for a name of the right shape whose leading
    characters are not an element symbol: [ab.upf] starts with two
    alphabetic characters, a dot and an extension, yet no record with
    element [ab] is produced; the assignment raises [ValueError]. *)
Lemma filename_fallback_counterexample :
  let fs : filesystem := fun _ => Some [("ab.upf", EntFile "")] in
  mem_construct PseudoPotentialData "" "ab.upf"
    = Ok (Node PseudoPotentialData None None "ab.upf") /\
  starts_with_symbol "ab.upf" "ab" /\
  parse_entry mem_construct sample_valid_element PseudoPotentialFamily
    ("ab.upf", EntFile "") = Raise ValueError /\
  parse_pseudos_from_directory mem_construct sample_valid_element
    PseudoPotentialFamily fs "/d" = Raise ValueError.
Proof.
  split; [reflexivity|]. split; [exact starts_with_symbol_ab|].
  split; vm_compute; reflexivity.
Qed.

Lemma filename_fallback_witness :
  parse_entry mem_construct sample_valid_element PseudoPotentialFamily
    ("Cu.UPF", EntFile "")
    = Ok (Node PseudoPotentialData None (Some "Cu") "Cu.UPF") /\
  parse_entry mem_construct sample_valid_element PseudoPotentialFamily
    ("ab.upf", EntFile "") = Raise ValueError /\
  parse_pseudos_from_directory mem_construct sample_valid_element
    PseudoPotentialFamily sample_fs "/unnamed" = Raise ParsingError.
Proof.
  split; [|split].
  - apply (proj1 (filename_fallback mem_construct sample_valid_element
             PseudoPotentialFamily sample_fs "/pseudos"
             [("Fe.upf", EntFile "Fe"); ("O.upf", EntFile "")] "Cu.UPF" "" []
             [Node PseudoPotentialData None (Some "Fe") "Fe.upf";
              Node PseudoPotentialData None (Some "O") "O.upf"]
             (Node PseudoPotentialData None None "Cu.UPF")
             eq_refl eq_refl eq_refl eq_refl) "Cu" starts_with_symbol_Cu).
    vm_compute. reflexivity.
  - apply (proj1 (proj2 (filename_fallback mem_construct sample_valid_element
             PseudoPotentialFamily (fun _ => Some [("ab.upf", EntFile "")]) "/d"
             [] "ab.upf" "" [] []
             (Node PseudoPotentialData None None "ab.upf")
             eq_refl eq_refl eq_refl eq_refl)) "ab" starts_with_symbol_ab).
    vm_compute. reflexivity.
  - apply (proj2 (proj2 (filename_fallback mem_construct sample_valid_element
             PseudoPotentialFamily sample_fs "/unnamed"
             [("O.upf", EntFile "")] "oxygen.upf" "" [("Si.upf", EntFile "")]
             [Node PseudoPotentialData None (Some "O") "O.upf"]
             (Node PseudoPotentialData None None "oxygen.upf")
             eq_refl eq_refl eq_refl eq_refl))).
    exact no_symbol_in_oxygen.
Defined.

(** ** Creating a family under a label that is taken *)

Section CreateFacts.
Context {Db : Type} (B : Backend Db).
Variable construct : pyclass -> string -> string -> Res node.
Variable valid_element : string -> bool.

(** C9 (amended): when a family with the label already exists,
    [create_from_folder] fails with [ValueError], the class that is also
    raised for a path that is not a directory, and no family is created:
    the database is untouched and the only backend call is the lookup of
    the label. *)
Theorem create_from_folder_existing_label cls (fs : filesystem) dirpath lbl descr
    (d : Db) (tr : list event) (existing : Z) :
  objects_get B cls lbl d = Some existing ->
  create_from_folder B construct valid_element cls fs dirpath lbl descr (d, tr)
    = (Raise ValueError, (d, tr ++ [EvObjectsGet lbl])) /\
  (forall (fs' : filesystem) dirpath',
     fs' dirpath' = None ->
     parse_pseudos_from_directory construct valid_element cls fs' dirpath' = Raise ValueError).
Proof.
  intros Hget. split.
  - unfold create_from_folder, bind, log_c, modify, gets. simpl.
    rewrite Hget. reflexivity.
  - intros fs' dirpath' Hnone. unfold parse_pseudos_from_directory.
    rewrite Hnone. reflexivity.
Qed.

End CreateFacts.

(** C9, as stated, fails: the exception raised for a label that is taken is
    of the class raised for a path that is not a directory and for a
    directory with duplicate elements. *)
Lemma create_from_folder_label_counterexample :
  objects_get mem_backend PseudoPotentialFamily "lda" db_fe = Some 1%Z /\
  exists e,
    (create_from_folder mem_backend mem_construct sample_valid_element PseudoPotentialFamily
       sample_fs "/pseudos" "lda" None (db_fe, [])).1 = Raise e /\
    parse_pseudos_from_directory mem_construct sample_valid_element PseudoPotentialFamily
      sample_fs "/missing" = Raise e /\
    parse_pseudos_from_directory mem_construct sample_valid_element PseudoPotentialFamily
      sample_fs "/duplicates" = Raise e.
Proof.
  split; [reflexivity|]. exists ValueError. repeat split; reflexivity.
Qed.

Lemma create_from_folder_existing_label_witness :
  create_from_folder mem_backend mem_construct sample_valid_element PseudoPotentialFamily
    sample_fs "/pseudos" "lda" None (db_fe, [])
    = (Raise ValueError, (db_fe, [] ++ [EvObjectsGet "lda"])).
Proof.
  apply (create_from_folder_existing_label mem_backend mem_construct sample_valid_element
           PseudoPotentialFamily sample_fs "/pseudos" "lda" None db_fe [] 1%Z).
  reflexivity.
Defined.

(** Under a free label the folder is parsed, the family and its nodes are
    stored and the nodes are added in one batch. *)
Example create_from_folder_runs :
  let r := create_from_folder mem_backend mem_construct sample_valid_element PseudoPotentialFamily
             sample_fs "/pseudos" "pbe" None (db_fe, []) in
  exists f,
    r.1 = Ok f /\ is_stored f = true /\ pk f = Some 20%Z /\
    element <$> group_nodes mem_backend f r.2.1 = [Some "Fe"; Some "O"; Some "Cu"] /\
    node_pk <$> group_nodes mem_backend f r.2.1 = [Some 21%Z; Some 22%Z; Some 23%Z].
Proof. vm_compute. eexists. repeat split; reflexivity. Qed.

(** * Further properties *)

(** ** What the dictionary comprehension keeps *)

Lemma foldl_index_lookup (ns : list node) (acc : gmap elem node) (k : elem) :
  foldl (fun m pseudo => <[element pseudo := pseudo]> m) acc ns !! k =
    match last (filter (fun n => element n = k) ns) with
    | Some n => Some n
    | None => acc !! k
    end.
Proof.
  revert acc. induction ns as [|x rest IH]; intros acc; [reflexivity|].
  simpl. rewrite IH, filter_cons.
  destruct (decide (element x = k)) as [Hx|Hx].
  - rewrite last_cons. destruct (last (filter _ rest)); [reflexivity|].
    rewrite Hx. apply lookup_insert_eq.
  - destruct (last (filter _ rest)); [reflexivity|].
    apply lookup_insert_ne, Hx.
Qed.

(** For each element the last node of the list is the one indexed. *)
Lemma index_of_nodes_lookup (ns : list node) (k : elem) :
  index_of_nodes ns !! k = last (filter (fun n => element n = k) ns).
Proof.
  unfold index_of_nodes. rewrite foldl_index_lookup, lookup_empty.
  destruct (last _); reflexivity.
Qed.

Lemma index_of_nodes_None (ns : list node) (k : elem) :
  index_of_nodes ns !! k = None <-> k ∉ element <$> ns.
Proof.
  rewrite index_of_nodes_lookup, last_None. split.
  - intros Hnil Hin. apply list_elem_of_fmap in Hin as [n [-> Hn]].
    assert (n ∈ filter (fun n0 => element n0 = element n) ns) as Hf
      by (apply list_elem_of_filter; auto).
    rewrite Hnil in Hf. inversion Hf.
  - intros Hnin. destruct (filter _ ns) as [|n l] eqn:E; [reflexivity|].
    exfalso. apply Hnin.
    assert (n ∈ filter (fun n0 => element n0 = k) ns) as Hf
      by (rewrite E; constructor).
    apply list_elem_of_filter in Hf as [<- Hn].
    apply list_elem_of_fmap. eauto.
Qed.

(** Without repeated elements every node is indexed under its element. *)
Lemma index_of_nodes_NoDup (ns : list node) (n : node) :
  NoDup (element <$> ns) -> n ∈ ns -> index_of_nodes ns !! element n = Some n.
Proof.
  intros Hnd Hin. rewrite index_of_nodes_lookup.
  induction ns as [|x rest IH]; [inversion Hin|].
  rewrite fmap_cons in Hnd. apply NoDup_cons in Hnd as [Hx Hrest].
  rewrite filter_cons. apply elem_of_cons in Hin as [->|Hin].
  - rewrite decide_True by reflexivity. rewrite last_cons.
    destruct (last (filter _ rest)) as [y|] eqn:E; [|reflexivity].
    exfalso. apply Hx. apply last_Some_elem_of in E.
    apply list_elem_of_filter in E as [<- Hy]. apply list_elem_of_fmap. eauto.
  - destruct (decide (element x = element n)) as [Heq|Hne]; [|auto].
    exfalso. apply Hx. rewrite Heq. apply list_elem_of_fmap. eauto.
Qed.

Lemma index_of_nodes_disjoint (ns : list node) (m : gmap elem node) :
  Forall (fun n => m !! element n = None) ns -> index_of_nodes ns ##ₘ m.
Proof.
  intros Hall. apply map_disjoint_spec. intros k x y Hx Hy.
  rewrite index_of_nodes_lookup in Hx. apply last_Some_elem_of in Hx.
  apply list_elem_of_filter in Hx as [<- Hin].
  rewrite Forall_forall in Hall. rewrite (Hall x Hin) in Hy. discriminate.
Qed.

(** ** More on the cached lookup *)

Section LookupFacts.
Context {Db : Type} (B : Backend Db).
Implicit Types (w : world Db) (n : node) (e : elem).

Lemma get_pseudo_hit_view e n w :
  index_view B w !! e = Some n ->
  get_pseudo B e w = (Ok n, warmed B w).
Proof.
  intros He. unfold get_pseudo, bind. rewrite pseudos_run, He. reflexivity.
Qed.

Lemma index_view_cached (f : family) (m : gmap elem node) (d : Db) tr :
  _pseudos f = Some m -> index_view B (World f d tr) = m.
Proof. intros H. unfold index_view. simpl. rewrite H. reflexivity. Qed.

Lemma warmed_cached (f : family) (m : gmap elem node) (d : Db) tr :
  _pseudos f = Some m -> warmed B (World f d tr) = World f d tr.
Proof. intros H. unfold warmed. simpl. rewrite H. reflexivity. Qed.

Lemma trace_warmed_reads w :
  exists evs, trace (warmed B w) = trace w ++ evs /\
              Forall (fun ev => is_read ev = true) evs.
Proof.
  unfold warmed. destruct (_pseudos (self w)); simpl.
  - exists []. rewrite app_nil_r. split; [reflexivity | constructor].
  - exists [EvGroupNodes]. split; [reflexivity | repeat constructor].
Qed.

(** X1: the fast path.  When the element is a key of the index,
    [get_pseudo] returns the indexed node and runs no query; the database
    is not touched, and once the cache exists the answer is the same over
    any backend and any database, also one that no longer holds the node. *)
Theorem get_pseudo_fast_path e n w :
  index_view B w !! e = Some n ->
  exists w',
    get_pseudo B e w = (Ok n, w') /\
    db w' = db w /\
    index_view B w' = index_view B w /\
    (trace w' = trace w \/ trace w' = trace w ++ [EvGroupNodes]) /\
    forall (B' : Backend Db) (d' : Db),
      get_pseudo B' e (World (self w') d' (trace w'))
        = (Ok n, World (self w') d' (trace w')).
Proof.
  intros He. exists (warmed B w).
  split; [apply get_pseudo_hit_view, He|].
  split; [apply db_warmed|].
  split; [apply index_view_warmed|].
  split; [apply trace_warmed|].
  intros B' d'. eapply get_pseudo_hit_run; [apply warmed_cache | exact He].
Qed.

(** X2: [get_pseudo] only reads.  Whatever the outcome, the database is
    the one before the call, the instance changes in its cache only, and
    the backend calls made are reads. *)
Theorem get_pseudo_reads_only e w :
  db (get_pseudo B e w).2 = db w /\
  forget_cache (self (get_pseudo B e w).2) = forget_cache (self w) /\
  exists evs,
    trace (get_pseudo B e w).2 = trace w ++ evs /\
    Forall (fun ev => is_read ev = true) evs.
Proof.
  destruct (trace_warmed_reads w) as [evs [Htr Hevs]].
  destruct (index_view B w !! e) as [n|] eqn:He.
  - rewrite (get_pseudo_hit_view e n w He). simpl.
    split; [apply db_warmed|]. split; [apply forget_cache_warmed|].
    exists evs. auto.
  - rewrite (get_pseudo_miss_run B e w He).
    assert (Forall (fun ev => is_read ev = true)
              (evs ++ [EvQuery (pk (self w)) (_pseudo_type (fam_class (self w))) e]))
      as Hall by (apply Forall_app; split; [exact Hevs | repeat constructor]).
    destruct (query_rows _ _ _ _ _ _) as [|n [|n' more]]; simpl;
      (split; [reflexivity|]);
      (split; [apply forget_cache_warmed|]);
      eexists; (split; [rewrite Htr, <- app_assoc; reflexivity | exact Hall]).
Qed.

(** X3: a failed lookup is not remembered.  After [get_pseudo] has raised,
    the index is what it was, and a later call for the same element runs
    the query again: when the database then holds one matching node, that
    node is returned. *)
Theorem get_pseudo_failure_not_cached e w err :
  (get_pseudo B e w).1 = Raise err ->
  let w' := (get_pseudo B e w).2 in
  index_view B w' = index_view B w /\
  forall (d' : Db) n,
    query_rows B (fam_class (self w')) (pk (self w'))
      (_pseudo_type (fam_class (self w'))) e d' = [n] ->
    exists w'',
      get_pseudo B e (World (self w') d' (trace w')) = (Ok n, w'') /\
      trace w'' = trace w' ++
        [EvQuery (pk (self w')) (_pseudo_type (fam_class (self w'))) e].
Proof.
  intros Hfail w'. subst w'.
  destruct (index_view B w !! e) as [n0|] eqn:He.
  { rewrite (get_pseudo_hit_view e n0 w He) in Hfail. discriminate. }
  rewrite (get_pseudo_miss_run B e w He) in Hfail |- *.
  assert (forall tr, index_view B (World (self (warmed B w)) (db w) tr) = index_view B w)
    as Hview by (intros tr; apply index_view_cached, warmed_cache).
  assert (forall d' tr, warmed B (World (self (warmed B w)) d' tr)
                        = World (self (warmed B w)) d' tr)
    as Hwarm by (intros d' tr; eapply warmed_cached, warmed_cache).
  destruct (query_rows B _ _ _ e (db w)) as [|n1 [|n2 more]]; simpl in *;
    try discriminate.
  all: split; [apply Hview|].
  all: intros d' n Hrows.
  all: eexists; split;
    [ rewrite get_pseudo_miss_run
        by (erewrite index_view_cached by apply warmed_cache; exact He);
      simpl; rewrite Hrows, Hwarm; reflexivity
    | reflexivity ].
Qed.

End LookupFacts.

(** ** More on [add_nodes] and the index *)

Section IndexFacts.
Context {Db : Type} (B : Backend Db).
Implicit Types (w : world Db) (n : node) (nodes : nodes_arg).

Local Abbreviation typed w nodes :=
  (Forall (fun n => node_type n = _pseudo_type (fam_class (self w))) (as_list nodes)).
Local Abbreviation fresh_in w nodes :=
  (Forall (fun n => index_view B w !! element n = None) (as_list nodes)).

Lemma with_pseudos_same (f : family) (m : gmap elem node) :
  _pseudos f = Some m -> with_pseudos f m = f.
Proof. destruct f; simpl. intros ->. reflexivity. Qed.

(** Past the guards and the duplicate check, the cache holds the batch
    merged over the former index, whatever [Group.add_nodes] then does. *)
Lemma add_nodes_fresh_state nodes w :
  is_stored (self w) = true -> typed w nodes -> fresh_in w nodes ->
  let ns := as_list nodes in
  let f := with_pseudos (self (warmed B w)) (index_of_nodes ns ∪ index_view B w) in
  (add_nodes B nodes w).1 = (group_add_nodes B f ns (db w)).1 /\
  self (add_nodes B nodes w).2 = f /\
  db (add_nodes B nodes w).2 = (group_add_nodes B f ns (db w)).2 /\
  trace (add_nodes B nodes w).2 = trace (warmed B w) ++ [EvGroupAddNodes ns].
Proof.
  intros Hs Hty Hfr ns f. rewrite add_nodes_fresh_run by assumption.
  cbv zeta. fold ns. fold f. destruct (group_add_nodes B f ns (db w)) as [r d].
  repeat split.
Qed.

Lemma stored_typed_dec nodes w :
  {typed w nodes} +
  {Exists (fun n => node_type n <> _pseudo_type (fam_class (self w))) (as_list nodes)}.
Proof. apply Forall_Exists_dec. intros n. apply decide. exact _. Qed.

Lemma fresh_present_dec nodes w :
  {fresh_in w nodes} +
  {Exists (fun n => is_Some (index_view B w !! element n)) (as_list nodes)}.
Proof.
  apply Forall_Exists_dec. intros n.
  destruct (index_view B w !! element n); [right; eauto | left; reflexivity].
Qed.

(** X4: the index only grows.  After a call of [add_nodes] or of
    [get_pseudo], whatever its outcome, every element that was a key of the
    index is still a key and is mapped to the same node. *)
Theorem index_only_grows w :
  (forall nodes, index_view B w ⊆ index_view B (add_nodes B nodes w).2) /\
  (forall e, index_view B w ⊆ index_view B (get_pseudo B e w).2).
Proof.
  split.
  - intros nodes. destruct (is_stored (self w)) eqn:Hs.
    2: { rewrite add_nodes_unstored_run by exact Hs. reflexivity. }
    destruct (stored_typed_dec nodes w) as [Hty|Hbad].
    2: { rewrite add_nodes_wrong_type_run by assumption. reflexivity. }
    destruct (fresh_present_dec nodes w) as [Hfr|Hpr].
    2: { rewrite add_nodes_present_run by assumption. simpl.
         rewrite index_view_warmed. reflexivity. }
    destruct (add_nodes_fresh_state nodes w Hs Hty Hfr) as (_ & Hself & _ & _).
    unfold index_view at 2. rewrite Hself. simpl.
    apply map_union_subseteq_r, index_of_nodes_disjoint, Hfr.
  - intros e. destruct (index_view B w !! e) as [n|] eqn:He.
    { rewrite (get_pseudo_hit_view B e n w He). simpl.
      rewrite index_view_warmed. reflexivity. }
    rewrite (get_pseudo_miss_run B e w He).
    destruct (query_rows _ _ _ _ _ _) as [|n [|n' more]]; simpl.
    + erewrite index_view_cached by apply warmed_cache. reflexivity.
    + unfold index_view at 2. simpl. apply insert_subseteq, He.
    + erewrite index_view_cached by apply warmed_cache. reflexivity.
Qed.

(** X5: insert, then look up.  After a successful [add_nodes] of records of
    the accepted type whose elements are pairwise distinct and new to the
    family, the index maps the element of each record to that record, and
    [get_pseudo] returns it without any backend call. *)
Theorem add_nodes_then_get_pseudo nodes w n :
  is_stored (self w) = true -> typed w nodes -> fresh_in w nodes ->
  NoDup (element <$> as_list nodes) ->
  (add_nodes B nodes w).1 = Ok tt ->
  n ∈ as_list nodes ->
  let w' := (add_nodes B nodes w).2 in
  index_view B w' !! element n = Some n /\
  get_pseudo B (element n) w' = (Ok n, w').
Proof.
  intros Hs Hty Hfr Hnd _ Hin w'.
  destruct (add_nodes_fresh_state nodes w Hs Hty Hfr) as (_ & Hself & _ & _).
  assert (_pseudos (self w') =
            Some (index_of_nodes (as_list nodes) ∪ index_view B w)) as Hcache
    by (subst w'; rewrite Hself; reflexivity).
  assert ((index_of_nodes (as_list nodes) ∪ index_view B w) !! element n = Some n)
    as Hlook by (apply lookup_union_Some_l, index_of_nodes_NoDup; assumption).
  split.
  - unfold index_view. rewrite Hcache. exact Hlook.
  - eapply get_pseudo_hit_run; eassumption.
Qed.

(** X6: the duplicate check looks at the family's index only.  A batch of
    records of the accepted type none of whose elements is a key of the
    index passes the check also when records of the batch share an element:
    the outcome is that of [Group.add_nodes], which is given the whole
    batch, and for each element of the batch the index keeps the last
    record that has it. *)
Theorem add_nodes_check_ignores_batch nodes w :
  is_stored (self w) = true -> typed w nodes -> fresh_in w nodes ->
  let ns := as_list nodes in
  let w' := (add_nodes B nodes w).2 in
  (add_nodes B nodes w).1 = (group_add_nodes B (self w') ns (db w)).1 /\
  last (trace w') = Some (EvGroupAddNodes ns) /\
  forall k, k ∈ element <$> ns ->
    index_view B w' !! k = last (filter (fun x => element x = k) ns).
Proof.
  intros Hs Hty Hfr ns w'.
  destruct (add_nodes_fresh_state nodes w Hs Hty Hfr) as (Hres & Hself & _ & Htr).
  subst w'. rewrite Hself, Htr. split; [exact Hres|].
  split; [apply last_snoc|].
  intros k Hk. unfold index_view. rewrite Hself. simpl.
  rewrite lookup_union_l', index_of_nodes_lookup; [reflexivity|].
  destruct (index_of_nodes ns !! k) eqn:E; [eauto|].
  apply index_of_nodes_None in E. contradiction.
Qed.

(** X7: the index is not rolled back.  The index is updated before
    [Group.add_nodes] is called: when that call raises, [add_nodes] raises
    the same exception and the index nevertheless maps the elements of the
    batch to its records, so that [get_pseudo] returns a record the group
    was not given. *)
Theorem add_nodes_index_not_rolled_back nodes w n err :
  is_stored (self w) = true -> typed w nodes -> fresh_in w nodes ->
  NoDup (element <$> as_list nodes) ->
  (forall f, forget_cache f = forget_cache (self w) ->
     (group_add_nodes B f (as_list nodes) (db w)).1 = Raise err) ->
  n ∈ as_list nodes ->
  let w' := (add_nodes B nodes w).2 in
  (add_nodes B nodes w).1 = Raise err /\
  index_view B w !! element n = None /\
  get_pseudo B (element n) w' = (Ok n, w').
Proof.
  intros Hs Hty Hfr Hnd Hraise Hin w'.
  destruct (add_nodes_fresh_state nodes w Hs Hty Hfr) as (Hres & Hself & _ & _).
  split.
  { rewrite Hres. apply Hraise. simpl. apply forget_cache_warmed. }
  split.
  { rewrite Forall_forall in Hfr. apply Hfr, Hin. }
  eapply get_pseudo_hit_run.
  - subst w'. rewrite Hself. reflexivity.
  - apply lookup_union_Some_l, index_of_nodes_NoDup; assumption.
Qed.

(** X8: the empty batch.  On a stored family an empty list passes both
    guards and the duplicate check; [Group.add_nodes] is still called, with
    the empty list, its outcome is the outcome of the call, and the index
    is what it was. *)
Theorem add_nodes_empty nodes w :
  is_stored (self w) = true ->
  as_list nodes = [] ->
  let w' := (add_nodes B nodes w).2 in
  (add_nodes B nodes w).1 = (group_add_nodes B (self (warmed B w)) [] (db w)).1 /\
  index_view B w' = index_view B w /\
  last (trace w') = Some (EvGroupAddNodes []).
Proof.
  intros Hs Hnil w'.
  assert (typed w nodes) as Hty by (rewrite Hnil; constructor).
  assert (fresh_in w nodes) as Hfr by (rewrite Hnil; constructor).
  destruct (add_nodes_fresh_state nodes w Hs Hty Hfr) as (Hres & Hself & _ & Htr).
  rewrite Hnil in Hres, Hself, Htr.
  assert (with_pseudos (self (warmed B w)) (index_of_nodes [] ∪ index_view B w)
            = self (warmed B w)) as Hf.
  { apply with_pseudos_same. rewrite warmed_cache. f_equal.
    unfold index_of_nodes. simpl. symmetry. apply (left_id_L ∅ (∪)). }
  rewrite Hf in Hres, Hself. subst w'.
  split; [exact Hres|]. split.
  - unfold index_view at 1. rewrite Hself, warmed_cache. reflexivity.
  - rewrite Htr. apply last_snoc.
Qed.

(** X9: a cold cache hides duplicates.  When the cache has not been built
    and the group holds nodes with the wanted element, [get_pseudo] builds
    the index, in which the last such node of the group stands for the
    element, and returns that node: with several nodes for one element no
    query is run and no [RuntimeError] is raised. *)
Theorem get_pseudo_cold_cache_last_wins e n w :
  _pseudos (self w) = None ->
  last (filter (fun x => element x = e) (group_nodes B (self w) (db w))) = Some n ->
  exists w',
    get_pseudo B e w = (Ok n, w') /\
    trace w' = trace w ++ [EvGroupNodes] /\
    db w' = db w.
Proof.
  intros Hcold Hlast. exists (warmed B w). split.
  - apply get_pseudo_hit_view. unfold index_view. rewrite Hcold.
    rewrite index_of_nodes_lookup. exact Hlast.
  - unfold warmed. rewrite Hcold. split; reflexivity.
Qed.

(** X11: the index is built once.  After the first read of [pseudos] the
    instance answers from its cache: over any backend, any database and any
    log, [pseudos] returns the mapping of the first read and [elements] its
    keys, and no backend call is made. *)
Theorem pseudos_built_once w (B' : Backend Db) (d' : Db) (tr' : list event) :
  let f := self (pseudos B w).2 in
  pseudos B' (World f d' tr') = ((pseudos B w).1, World f d' tr') /\
  elements B' (World f d' tr') = ((elements B w).1, World f d' tr').
Proof.
  intros f. subst f. rewrite elements_run, pseudos_run. simpl.
  rewrite elements_run, pseudos_run.
  erewrite index_view_cached, warmed_cached by apply warmed_cache.
  split; reflexivity.
Qed.

End IndexFacts.

(** ** More on the builder *)

Lemma is_alpha_not_dot c : is_alpha c = true -> is_dot c = false.
Proof.
  intros Ha. destruct (is_dot c) eqn:Hd; [|reflexivity].
  apply is_dot_true in Hd. subst c. discriminate Ha.
Qed.

(** Three leading letters never match the pattern. *)
Lemma element_pattern_three_letters a b c rest :
  is_alpha a = true -> is_alpha b = true -> is_alpha c = true ->
  re_search_group1 element_pattern (String a (String b (String c rest))) = None.
Proof.
  intros Ha Hb Hc. unfold re_search_group1, element_pattern.
  rewrite match_once_or_twice, Ha, Hb, !match_once.
  rewrite (is_alpha_not_dot _ Hb), (is_alpha_not_dot _ Hc). reflexivity.
Qed.

Lemma starts_with_symbol_app name sym suffix :
  starts_with_symbol name sym -> starts_with_symbol (name +:+ suffix) sym.
Proof.
  intros (Hlen & Halpha & c & tail & Hw & ->).
  split; [exact Hlen|]. split; [exact Halpha|].
  exists c, (tail +:+ suffix). split; [exact Hw|].
  destruct sym as [|a [|b [|x sym']]]; simpl in Hlen;
    try (destruct Hlen; discriminate); reflexivity.
Qed.

(** X12: the pattern is not anchored at the end.  When a name yields a
    symbol, so does every name that continues it, with the same symbol:
    only the leading letters, the dot and the first character after it
    count. *)
Theorem element_pattern_ignores_suffix name sym suffix :
  re_search_group1 element_pattern name = Some sym ->
  re_search_group1 element_pattern (name +:+ suffix) = Some sym.
Proof.
  intros H. apply element_pattern_sound, starts_with_symbol_app,
    element_pattern_complete, H.
Qed.

Section BuilderMore.
Variable construct : pyclass -> string -> string -> Res node.
Variable valid_element : string -> bool.

Lemma parse_entry_ok cls entry p :
  parse_entry construct valid_element cls entry = Ok p ->
  is_Some (element p) /\ exists content, entry.2 = EntFile content.
Proof.
  destruct entry as [name target]. unfold parse_entry.
  destruct target as [content| |]; try discriminate.
  destruct (construct _ content name) as [pseudo|e].
  - destruct (element pseudo) as [el|] eqn:E.
    + intros [= <-]. rewrite E. eauto.
    + destruct (re_search_group1 element_pattern name) as [sym|]; [|discriminate].
      unfold assign_element. destruct (valid_element sym); [|discriminate].
      intros [= <-]. simpl. eauto.
  - destruct e; discriminate.
Qed.

Lemma parse_loop_ok cls entries acc ps :
  parse_loop construct valid_element cls entries acc = Ok ps ->
  exists new,
    ps = acc ++ new /\
    Forall2 (fun entry p => parse_entry construct valid_element cls entry = Ok p) entries new.
Proof.
  revert acc. induction entries as [|x rest IH]; intros acc; simpl.
  - intros [= <-]. exists []. rewrite app_nil_r. split; [reflexivity | constructor].
  - destruct (parse_entry construct valid_element cls x) as [p|e] eqn:E; [|discriminate].
    intros H. apply IH in H as (new & -> & Hall).
    exists (p :: new). rewrite <- app_assoc. split; [reflexivity|].
    constructor; assumption.
Qed.

Lemma validate_pseudos_ok ps ps' :
  validate_pseudos ps = Ok ps' ->
  ps' = ps /\ ps <> [] /\ NoDup (element <$> ps).
Proof.
  unfold validate_pseudos. case_bool_decide as Hnil; [discriminate|].
  case_bool_decide as Hsize; [discriminate|]. intros [= <-].
  split; [reflexivity|]. split; [exact Hnil|].
  apply size_list_to_set_NoDup. rewrite length_fmap.
  destruct (decide (length ps = size (list_to_set (element <$> ps) : gset elem)));
    [congruence | contradiction].
Qed.

(** X13: what a returned list is.  When [parse_pseudos_from_directory]
    returns, the path is a directory all of whose entries are regular files,
    the list has one record per entry in listing order, it is not empty, no
    two records have the same element, and every record has its element
    set. *)
Theorem parse_result_valid cls (fs : filesystem) dirpath pseudos :
  parse_pseudos_from_directory construct valid_element cls fs dirpath = Ok pseudos ->
  exists entries,
    fs dirpath = Some entries /\
    Forall (fun entry => exists content, entry.2 = EntFile content) entries /\
    Forall2 (fun entry p => parse_entry construct valid_element cls entry = Ok p) entries pseudos /\
    length pseudos = length entries /\
    pseudos <> [] /\
    NoDup (element <$> pseudos) /\
    Forall (fun p => is_Some (element p)) pseudos.
Proof.
  unfold parse_pseudos_from_directory.
  destruct (fs dirpath) as [entries|]; [|discriminate].
  destruct (parse_loop construct valid_element cls entries []) as [ps|e] eqn:Hloop; [|discriminate].
  intros Hval. apply validate_pseudos_ok in Hval as (-> & Hne & Hnd).
  apply parse_loop_ok in Hloop as (new & -> & Hall). simpl in *.
  exists entries. split; [reflexivity|].
  split.
  { apply Forall_forall. intros entry Hin.
    apply list_elem_of_lookup in Hin as [i Hi].
    destruct (Forall2_lookup_l _ _ _ _ _ Hall Hi) as (p & _ & Hp).
    apply parse_entry_ok in Hp as [_ Hfile]. exact Hfile. }
  split; [exact Hall|].
  split; [symmetry; eapply Forall2_length; exact Hall|].
  split; [exact Hne|]. split; [exact Hnd|].
  apply Forall_forall. intros p Hin.
  apply list_elem_of_lookup in Hin as [i Hi].
  destruct (Forall2_lookup_r _ _ _ _ _ Hall Hi) as (entry & _ & Hp).
  apply parse_entry_ok in Hp as [Hel _]. exact Hel.
Qed.


(** X15: no element from three letters.  When the constructor leaves the
    element unset and the filename starts with three alphabetic characters,
    the entry fails with [ParsingError]. *)
Theorem parse_entry_three_letters cls a b c rest content pseudo :
  construct (_pseudo_type cls) content (String a (String b (String c rest))) = Ok pseudo ->
  element pseudo = None ->
  is_alpha a = true -> is_alpha b = true -> is_alpha c = true ->
  parse_entry construct valid_element cls (String a (String b (String c rest)), EntFile content)
    = Raise ParsingError.
Proof.
  intros Hctor Hnone Ha Hb Hc. unfold parse_entry.
  rewrite Hctor, Hnone, element_pattern_three_letters by assumption. reflexivity.
Qed.

End BuilderMore.

(** ** More on [create_from_folder] *)

Section CreateMore.
Context {Db : Type} (B : Backend Db).
Variable construct : pyclass -> string -> string -> Res node.
Variable valid_element : string -> bool.

(** X16: nothing is stored unless the folder parses.  Under a free label,
    when the class attribute is not a subclass of [PseudoPotentialData]
    the call fails with [RuntimeError] without looking at the folder, and
    when parsing the folder raises, the call raises the same exception; in
    both cases the database is untouched and the only backend call is the
    lookup of the label. *)
Theorem create_from_folder_stores_after_parsing cls (fs : filesystem) dirpath lbl descr
    (d : Db) (tr : list event) :
  objects_get B cls lbl d = None ->
  (issubclass (_pseudo_type cls) PseudoPotentialData = false ->
   create_from_folder B construct valid_element cls fs dirpath lbl descr (d, tr)
     = (Raise RuntimeError, (d, tr ++ [EvObjectsGet lbl]))) /\
  (issubclass (_pseudo_type cls) PseudoPotentialData = true ->
   forall e,
     parse_pseudos_from_directory construct valid_element cls fs dirpath = Raise e ->
     create_from_folder B construct valid_element cls fs dirpath lbl descr (d, tr)
       = (Raise e, (d, tr ++ [EvObjectsGet lbl]))).
Proof.
  intros Hfree.
  split; [intros Hsub | intros Hsub e Hparse];
    unfold create_from_folder, bind, log_c, modify, gets, lift_res, init; simpl;
    rewrite Hfree, Hsub; simpl; [reflexivity|].
  rewrite Hparse. reflexivity.
Qed.

Lemma parse_entry_type cls entry p :
  (forall content name q,
     construct (_pseudo_type cls) content name = Ok q ->
     node_type q = _pseudo_type cls) ->
  parse_entry construct valid_element cls entry = Ok p ->
  node_type p = _pseudo_type cls.
Proof.
  intros Hinst. destruct entry as [name target]. unfold parse_entry.
  destruct target as [content| |]; try discriminate.
  destruct (construct _ content name) as [pseudo|e] eqn:Hctor.
  - apply Hinst in Hctor. destruct (element pseudo).
    + intros [= <-]. exact Hctor.
    + destruct (re_search_group1 element_pattern name) as [sym|]; [|discriminate].
      unfold assign_element. destruct (valid_element sym); [|discriminate].
      intros [= <-]. exact Hctor.
  - destruct e; discriminate.
Qed.

(** X17: the checks of [add_nodes] pass on the batch built from a folder.
    Take a free label, a folder that parses and a constructor that
    instantiates the accepted class; let [store()] return the family as it
    is with a key, as a group without nodes, and each node as it is with a
    key.  Then the stored test, the exact-type test and the duplicate check
    of [add_nodes] all pass, which the theorem derives from what the parser
    returns: [create_from_folder] ends exactly as the one call of
    [Group.add_nodes] on the stored nodes ends, with its exception if it
    raises and otherwise with the stored family, in whose index every
    stored node stands under its element. *)
Theorem create_from_folder_batch_passes cls (fs : filesystem) dirpath lbl descr
    (d d1 d2 : Db) (tr tr2 : list event) pseudos stored (i : Z) :
  objects_get B cls lbl d = None ->
  issubclass (_pseudo_type cls) PseudoPotentialData = true ->
  (forall content name q,
     construct (_pseudo_type cls) content name = Ok q ->
     node_type q = _pseudo_type cls) ->
  parse_pseudos_from_directory construct valid_element cls fs dirpath = Ok pseudos ->
  group_store B (Family cls lbl descr None false None) d
    = (Ok (Family cls lbl descr (Some i) true None), d1) ->
  store_nodes B pseudos (d1, (tr ++ [EvObjectsGet lbl]) ++ [EvGroupStore])
    = (Ok stored, (d2, tr2)) ->
  Forall2 (fun p s => exists key,
             s = Node (node_type p) (Some key) (element p) (filename p))
    pseudos stored ->
  group_nodes B (Family cls lbl descr (Some i) true None) d2 = [] ->
  let f1 := Family cls lbl descr (Some i) true None in
  let f := with_pseudos f1 (index_of_nodes stored) in
  add_nodes B (ArgList stored) (World f1 d2 tr2)
    = ((group_add_nodes B f stored d2).1,
       World f (group_add_nodes B f stored d2).2
         (tr2 ++ [EvGroupNodes; EvGroupAddNodes stored])) /\
  create_from_folder B construct valid_element cls fs dirpath lbl descr (d, tr)
    = (match (group_add_nodes B f stored d2).1 with
       | Ok _ => Ok f
       | Raise e => Raise e
       end,
       ((group_add_nodes B f stored d2).2,
        tr2 ++ [EvGroupNodes; EvGroupAddNodes stored])) /\
  forall s, s ∈ stored -> index_of_nodes stored !! element s = Some s.
Proof.
  intros Hfree Hsub Hinst Hparse Hgs Hns Hkeep Hempty f1 f.
  destruct (parse_result_valid _ _ _ _ _ _ Hparse)
    as (entries & _ & _ & Hper & _ & _ & Hdistinct & _).
  assert (Forall (fun p => node_type p = _pseudo_type cls) pseudos) as Htypes.
  { apply Forall_forall. intros p Hin.
    apply list_elem_of_lookup in Hin as [k Hk].
    destruct (Forall2_lookup_r _ _ _ _ _ Hper Hk) as (entry & _ & Hp).
    exact (parse_entry_type _ _ _ Hinst Hp). }
  assert (element <$> stored = element <$> pseudos) as Hels.
  { clear -Hkeep. induction Hkeep as [|p s ps ss [key ->] _ IH]; [reflexivity|].
    rewrite !fmap_cons, IH. reflexivity. }
  assert (Forall (fun s => node_type s = _pseudo_type cls) stored) as Hstored.
  { clear -Hkeep Htypes.
    induction Hkeep as [|p s ps ss [key ->] _ IH]; [constructor|].
    apply Forall_cons in Htypes as [Hp Hps]. constructor; [exact Hp | auto]. }
  assert (NoDup (element <$> stored)) as Hnd by (rewrite Hels; exact Hdistinct).
  pose (w := World f1 d2 tr2).
  assert (index_view B w = ∅) as Hview.
  { unfold index_view, w, f1. simpl. rewrite Hempty. reflexivity. }
  assert (add_nodes B (ArgList stored) w =
            ((group_add_nodes B f stored d2).1,
             World f (group_add_nodes B f stored d2).2
               (tr2 ++ [EvGroupNodes; EvGroupAddNodes stored]))) as Hadd.
  { rewrite add_nodes_fresh_run.
    - rewrite Hview. unfold warmed, w, f, f1, with_pseudos. simpl.
      rewrite (right_id_L ∅ (∪)), <- app_assoc.
      destruct (group_add_nodes B _ stored d2) as [r d3]. reflexivity.
    - reflexivity.
    - exact Hstored.
    - simpl. rewrite Hview. apply Forall_forall. intros s _. apply lookup_empty. }
  split; [exact Hadd|].
  split; [|intros s Hs; apply index_of_nodes_NoDup; assumption].
  unfold create_from_folder, bind at 1, log_c, modify. simpl.
  unfold bind at 1, gets. simpl. rewrite Hfree.
  unfold bind at 1, lift_res, init. rewrite Hsub. simpl.
  unfold bind at 1. rewrite Hparse.
  unfold bind at 1, store_family, bind at 1, log_c, modify. simpl.
  rewrite Hgs. unfold bind at 1. rewrite Hns.
  unfold bind, call, ret. simpl. fold f1. fold w. rewrite Hadd.
  destruct (group_add_nodes B f stored d2) as [[[]|e] d3]; reflexivity.
Qed.

End CreateMore.

(** ** The further properties on the sample objects *)

Lemma get_pseudo_fast_path_witness :
  exists w',
    get_pseudo mem_backend (Some "Fe") (World lda db_fe []) = (Ok fe1, w') /\
    db w' = db_fe /\
    trace w' = [EvGroupNodes] /\
    get_pseudo mem_backend (Some "Fe") (World (self w') db_empty (trace w'))
      = (Ok fe1, World (self w') db_empty (trace w')).
Proof.
  destruct (get_pseudo_fast_path mem_backend (Some "Fe") fe1 (World lda db_fe []))
    as (w' & Hrun & Hdb & _ & _ & Hany).
  - vm_compute. reflexivity.
  - exists w'. split; [exact Hrun|]. split; [exact Hdb|].
    split; [|apply (Hany mem_backend db_empty)].
    vm_compute in Hrun. injection Hrun as <-. reflexivity.
Defined.

Lemma get_pseudo_failure_not_cached_witness :
  let w' := (get_pseudo mem_backend (Some "Fe") (World lda db_empty [])).2 in
  (get_pseudo mem_backend (Some "Fe") (World lda db_empty [])).1 = Raise ValueError /\
  index_view mem_backend w' = index_view mem_backend (World lda db_empty []) /\
  exists w'',
    get_pseudo mem_backend (Some "Fe") (World (self w') db_fe (trace w')) = (Ok fe1, w'').
Proof.
  split; [vm_compute; reflexivity|].
  destruct (get_pseudo_failure_not_cached mem_backend (Some "Fe")
              (World lda db_empty []) ValueError) as [Hview Hagain].
  - vm_compute. reflexivity.
  - split; [exact Hview|].
    destruct (Hagain db_fe fe1) as (w'' & Hrun & _); [vm_compute; reflexivity|].
    exists w''. exact Hrun.
Defined.

Lemma add_nodes_then_get_pseudo_witness :
  let w' := (add_nodes mem_backend (ArgList [fe1; ox1]) (World lda db_empty [])).2 in
  index_view mem_backend w' !! Some "O" = Some ox1 /\
  get_pseudo mem_backend (Some "O") w' = (Ok ox1, w').
Proof.
  apply (add_nodes_then_get_pseudo mem_backend (ArgList [fe1; ox1])
           (World lda db_empty []) ox1).
  - reflexivity.
  - repeat constructor.
  - repeat constructor.
  - compute_done.
  - vm_compute. reflexivity.
  - compute_done.
Defined.

Lemma add_nodes_check_ignores_batch_witness :
  let w' := (add_nodes mem_backend (ArgList [fe1; fe2]) (World lda db_empty [])).2 in
  (add_nodes mem_backend (ArgList [fe1; fe2]) (World lda db_empty [])).1
    = (mem_group_add_nodes (self w') [fe1; fe2] db_empty).1 /\
  last (trace w') = Some (EvGroupAddNodes [fe1; fe2]) /\
  index_view mem_backend w' !! Some "Fe" = Some fe2.
Proof.
  destruct (add_nodes_check_ignores_batch mem_backend (ArgList [fe1; fe2])
              (World lda db_empty [])) as (Hres & Htr & Hidx).
  - reflexivity.
  - repeat constructor.
  - repeat constructor.
  - split; [exact Hres|]. split; [exact Htr|].
    rewrite (Hidx (Some "Fe")); [reflexivity | compute_done].
Defined.

Lemma add_nodes_index_not_rolled_back_witness :
  let w := World lda db_fe [] in
  let w' := (add_nodes mem_backend (ArgOne si_unstored) w).2 in
  (add_nodes mem_backend (ArgOne si_unstored) w).1 = Raise ValueError /\
  index_view mem_backend w !! Some "Si" = None /\
  get_pseudo mem_backend (Some "Si") w' = (Ok si_unstored, w').
Proof.
  apply (add_nodes_index_not_rolled_back mem_backend (ArgOne si_unstored)
           (World lda db_fe []) si_unstored ValueError).
  - reflexivity.
  - repeat constructor.
  - repeat constructor.
  - compute_done.
  - intros f _. reflexivity.
  - compute_done.
Defined.

Lemma add_nodes_empty_witness :
  let w' := (add_nodes mem_backend (ArgList []) (World lda db_fe [])).2 in
  (add_nodes mem_backend (ArgList []) (World lda db_fe [])).1 = Ok tt /\
  index_view mem_backend w' = index_view mem_backend (World lda db_fe []) /\
  last (trace w') = Some (EvGroupAddNodes []).
Proof.
  destruct (add_nodes_empty mem_backend (ArgList []) (World lda db_fe []))
    as (Hres & Hidx & Htr); [reflexivity | reflexivity |].
  split; [rewrite Hres; reflexivity|]. split; [exact Hidx | exact Htr].
Defined.

Lemma get_pseudo_cold_cache_last_wins_witness :
  length (query_rows mem_backend PseudoPotentialFamily (Some 1%Z)
            PseudoPotentialData (Some "Fe") db_fe_twice) = 2 /\
  exists w',
    get_pseudo mem_backend (Some "Fe") (World lda db_fe_twice []) = (Ok fe2, w') /\
    trace w' = [] ++ [EvGroupNodes] /\
    db w' = db_fe_twice.
Proof.
  split; [reflexivity|].
  apply (get_pseudo_cold_cache_last_wins mem_backend (Some "Fe") fe2
           (World lda db_fe_twice [])); reflexivity.
Defined.

Lemma element_pattern_ignores_suffix_witness :
  re_search_group1 element_pattern ("Fe.pbe" +:+ "-n-kjpaw.UPF") = Some "Fe".
Proof.
  apply (element_pattern_ignores_suffix "Fe.pbe" "Fe" "-n-kjpaw.UPF"). reflexivity.
Defined.

Lemma parse_result_valid_witness :
  let three :=
    [Node PseudoPotentialData None (Some "Fe") "Fe.upf";
     Node PseudoPotentialData None (Some "O") "O.upf";
     Node PseudoPotentialData None (Some "Cu") "Cu.UPF"] in
  exists entries,
    sample_fs "/pseudos" = Some entries /\
    length three = length entries /\
    NoDup (element <$> three) /\
    Forall (fun p => is_Some (element p)) three.
Proof.
  intros three.
  destruct (parse_result_valid mem_construct sample_valid_element PseudoPotentialFamily sample_fs
              "/pseudos" three)
    as (entries & Hdir & _ & _ & Hlen & _ & Hnd & Hset).
  - vm_compute. reflexivity.
  - exists entries. auto.
Defined.


Lemma parse_entry_three_letters_witness :
  parse_entry mem_construct sample_valid_element PseudoPotentialFamily ("Iron.upf", EntFile "")
    = Raise ParsingError.
Proof.
  apply (parse_entry_three_letters mem_construct sample_valid_element PseudoPotentialFamily
           "I" "r" "o" "n.upf" "" (Node PseudoPotentialData None None "Iron.upf"));
    reflexivity.
Defined.

Lemma create_from_folder_stores_after_parsing_witness :
  create_from_folder mem_backend mem_construct sample_valid_element PseudoPotentialFamily
    sample_fs "/duplicates" "pbe" None (db_fe, [])
    = (Raise ValueError, (db_fe, [] ++ [EvObjectsGet "pbe"])) /\
  create_from_folder mem_backend mem_construct sample_valid_element (FamClass "Broken" (PyClass "Dict" ["Data"; "Node"]))
    sample_fs "/pseudos" "pbe" None (db_fe, [])
    = (Raise RuntimeError, (db_fe, [] ++ [EvObjectsGet "pbe"])).
Proof.
  split.
  - apply (proj2 (create_from_folder_stores_after_parsing mem_backend mem_construct sample_valid_element
                    PseudoPotentialFamily sample_fs "/duplicates" "pbe" None db_fe []
                    eq_refl) eq_refl ValueError).
    reflexivity.
  - apply (proj1 (create_from_folder_stores_after_parsing mem_backend mem_construct sample_valid_element
                    (FamClass "Broken" (PyClass "Dict" ["Data"; "Node"]))
                    sample_fs "/pseudos" "pbe" None db_fe [] eq_refl)).
    reflexivity.
Defined.

Lemma create_from_folder_batch_passes_witness :
  exists f,
    (create_from_folder mem_backend mem_construct sample_valid_element
       PseudoPotentialFamily sample_fs "/pseudos" "pbe" None (db_fe, [])).1 = Ok f /\
    is_stored f = true /\
    exists cu, index_view mem_backend (World f db_fe []) !! Some "Cu" = Some cu /\
               filename cu = "Cu.UPF" /\ node_is_stored cu = true.
Proof.
  edestruct (create_from_folder_batch_passes mem_backend mem_construct
               sample_valid_element PseudoPotentialFamily sample_fs
               "/pseudos" "pbe" None db_fe)
    as (_ & Hrun & _).
  - vm_compute. reflexivity.
  - vm_compute. reflexivity.
  - intros content name q. unfold mem_construct.
    case_bool_decide; [discriminate|]. intros [= <-]. reflexivity.
  - vm_compute. reflexivity.
  - vm_compute. reflexivity.
  - vm_compute. reflexivity.
  - repeat econstructor.
  - reflexivity.
  - eexists. split; [rewrite Hrun; vm_compute; reflexivity|].
    split; [reflexivity|].
    eexists. split; [vm_compute; reflexivity|]. split; reflexivity.
Defined.
